(** * Stock-control reconciliation session

    A shallow embedding of the scanning-session logic of the two stock-control
    pages of the repository:

    - [StockControlFinal]: [client/src/pages/stock-control-final.tsx]
      (component [StockControlFinal]);
    - [StockControlPage]: the earlier page (component [StockControlPage]),
      whose scan handler is [handleImeiScan].

    A React component keeps its state in [useState] cells; an event handler
    reads the cells of the render it was created in and schedules updates.
    One handler call is modelled as one function from the state before the
    event to the state after it, together with the notifications ([toast])
    it sends, in the order it sends them. *)

From Stdlib Require Import String Ascii List Bool Arith ZArith Lia.
Import ListNotations.

Local Open Scope string_scope.
Local Open Scope list_scope.

(** ** JavaScript primitives used by the handlers *)

Module Js.

(** A string is a sequence of code units; the ones below 256 are modelled.
    [isWhiteSpace] is the part of ECMAScript's WhiteSpace and LineTerminator
    sets that lies in that range: TAB, LF, VT, FF, CR, SP and NBSP. *)
Definition isWhiteSpace (c : ascii) : bool :=
  let n := nat_of_ascii c in
  (Nat.eqb n 9 || Nat.eqb n 10 || Nat.eqb n 11 || Nat.eqb n 12
   || Nat.eqb n 13 || Nat.eqb n 32 || Nat.eqb n 160)%bool.

Fixpoint trimStart (s : string) : string :=
  match s with
  | EmptyString => EmptyString
  | String c r => if isWhiteSpace c then trimStart r else s
  end.

Fixpoint trimEnd (s : string) : string :=
  match s with
  | EmptyString => EmptyString
  | String c r =>
      match trimEnd r with
      | EmptyString => if isWhiteSpace c then EmptyString else String c EmptyString
      | r' => String c r'
      end
  end.

(** [String.prototype.trim] *)
Definition trim (s : string) : string := trimEnd (trimStart s).

(** Truthiness of a string: every string but the empty one. *)
Definition truthy (s : string) : bool :=
  match s with EmptyString => false | String _ _ => true end.

(** [Array.prototype.includes] on an array of strings. *)
Definition includes (xs : list string) (x : string) : bool :=
  existsb (String.eqb x) xs.

(** [s.trim()] is empty exactly when [s] holds white space only. *)
Fixpoint allWhiteSpace (s : string) : bool :=
  match s with
  | EmptyString => true
  | String c r => isWhiteSpace c && allWhiteSpace r
  end.

(** [String.prototype.toLowerCase] on one code unit below 256: the letters A
    to Z and the capital letters of Latin-1 (192 to 222, without the
    multiplication sign 215) move up by 32; every other unit is kept. *)
Definition lowerChar (c : ascii) : ascii :=
  let n := nat_of_ascii c in
  if (Nat.leb 65 n && Nat.leb n 90)
     || (Nat.leb 192 n && Nat.leb n 222 && negb (Nat.eqb n 215))
  then ascii_of_nat (n + 32)
  else c.

Fixpoint toLowerCase (s : string) : string :=
  match s with
  | EmptyString => EmptyString
  | String c r => String (lowerChar c) (toLowerCase r)
  end.

(** [s.includes(sub)] on strings: [sub] occurs in [s] at some position. *)
Fixpoint strIncludes (s sub : string) : bool :=
  String.prefix sub s
  || match s with
     | EmptyString => false
     | String _ r => strIncludes r sub
     end.

End Js.

(** ** stock-control-final.tsx *)

Module StockControlFinal.

(** [Product.status]: a union of seven string literals. *)
Inductive Status : Type :=
| disponible
| reservado
| vendido
| tecnico_interno
| tecnico_externo
| a_reparar
| extravio.

(** [a === b] on two status literals. *)
Definition status_eqb (a b : Status) : bool :=
  match a, b with
  | disponible, disponible => true
  | reservado, reservado => true
  | vendido, vendido => true
  | tecnico_interno, tecnico_interno => true
  | tecnico_externo, tecnico_externo => true
  | a_reparar, a_reparar => true
  | extravio, extravio => true
  | _, _ => false
  end.

(** [interface Product].  The price, observation and date fields are read by
    no handler of the session and are left out. *)
Record Product : Type := mkProduct {
  id : Z;
  clientId : Z;
  imei : string;
  model : string;
  storage : string;
  color : string;
  status : Status
}.

Inductive ScanStatus : Type := found | not_found.

(** [interface ScannedItem]; [timestamp] is the value of [new Date()]. *)
Record ScannedItem : Type := mkScannedItem {
  item_imei : string;
  item_product : option Product;
  item_timestamp : Z;
  item_status : ScanStatus
}.

(** The cell [sessionStartCounts]. *)
Record Counts : Type := mkCounts {
  c_disponible : nat;
  c_reservado : nat;
  c_tecnico_interno : nat;
  c_total : nat
}.

(** The notifications of the page, one constructor per [toast] call, with
    the values its text is built from. *)
Inductive Toast : Type :=
| ProductosNoEncontrados (missing : nat)
| ControlDeStockIniciado (expected nDisponible nReservado nTecnico : nat)
| ControlCompletadoPerfecto (scanned : nat)
| ProductosFaltantesDetectados (missing : nat)
| ControlIncompleto (scanned expected : nat)
| EstadoActualizado (m : string)
| ProductoEncontrado (m : string)
| ErrorAlActualizar (message : string)
| ErrorNoSePudoActualizar
| ProductoNoValido (st : Status)
| ProductoVerificado (p : Product)
| ImeiNoEncontrado (x : string)
| ImeiYaEscaneado
| SesionFinalizada (scanned : nat)
| ListaLimpiada.

(** The state cells of the component the session logic reads or writes,
    and [products], the data of the [/api/products] query. *)
Record State : Type := mkState {
  products : list Product;
  isScanning : bool;
  imeiInput : string;
  scannedItems : list ScannedItem;
  sessionStartCounts : Counts;
  missingProducts : list Product
}.

(** The state of a freshly mounted component showing [ps]. *)
Definition initialState (ps : list Product) : State :=
  mkState ps false "" [] (mkCounts 0 0 0 0) [].

(** *** Handlers as state updates with notifications *)

Definition Update : Type := State -> State * list Toast.

Definition skip : Update := fun s => (s, []).

Definition andThen (a b : Update) : Update :=
  fun s =>
    let (s1, t1) := a s in
    let (s2, t2) := b s1 in
    (s2, t1 ++ t2).

Notation "a ;; b" := (andThen a b) (at level 61, right associativity).

Definition toast (t : Toast) : Update := fun s => (s, [t]).

Definition setProducts (ps : list Product) : Update :=
  fun s => (mkState ps (isScanning s) (imeiInput s) (scannedItems s)
              (sessionStartCounts s) (missingProducts s), []).

Definition setIsScanning (b : bool) : Update :=
  fun s => (mkState (products s) b (imeiInput s) (scannedItems s)
              (sessionStartCounts s) (missingProducts s), []).

Definition setImeiInput (v : string) : Update :=
  fun s => (mkState (products s) (isScanning s) v (scannedItems s)
              (sessionStartCounts s) (missingProducts s), []).

(** [setScannedItems(prev => f(prev))] *)
Definition setScannedItems (f : list ScannedItem -> list ScannedItem) : Update :=
  fun s => (mkState (products s) (isScanning s) (imeiInput s) (f (scannedItems s))
              (sessionStartCounts s) (missingProducts s), []).

Definition setSessionStartCounts (c : Counts) : Update :=
  fun s => (mkState (products s) (isScanning s) (imeiInput s) (scannedItems s)
              c (missingProducts s), []).

(** [setMissingProducts(prev => f(prev))] *)
Definition setMissingProducts (f : list Product -> list Product) : Update :=
  fun s => (mkState (products s) (isScanning s) (imeiInput s) (scannedItems s)
              (sessionStartCounts s) (f (missingProducts s)), []).

(** *** Values derived on every render *)

Definition hasStatus (st : Status) (p : Product) : bool :=
  status_eqb (status p) st.

(** [p.status === 'disponible' || p.status === 'reservado' ||
     p.status === 'tecnico_interno'] *)
Definition scannable (p : Product) : bool :=
  hasStatus disponible p || hasStatus reservado p || hasStatus tecnico_interno p.

(** The counters of [stats] the session uses. *)
Definition stats_total (s : State) : nat := length (products s).
Definition stats_count (st : Status) (s : State) : nat :=
  length (filter (hasStatus st) (products s)).

Definition scannedIMEIs (s : State) : list string :=
  map item_imei (scannedItems s).

Definition scannedProducts (s : State) : list Product :=
  filter (fun p => Js.includes (scannedIMEIs s) (imei p)) (products s).

(** [dynamicStats]: numbers are integers here, a difference of two lengths
    is taken in [Z]. *)
Record DynamicStats : Type := mkDynamicStats {
  d_disponible : Z;
  d_reservado : Z;
  d_tecnico_interno : Z;
  d_scannedCount : nat;
  d_expectedTotal : nat;
  d_pendingToScan : Z
}.

Definition liveCount (st : Status) (s : State) : Z :=
  (Z.of_nat (stats_count st s)
   - Z.of_nat (length (filter (hasStatus st) (scannedProducts s))))%Z.

Definition dynamicStats (s : State) : DynamicStats :=
  let total := c_total (sessionStartCounts s) in
  mkDynamicStats
    (liveCount disponible s)
    (liveCount reservado s)
    (liveCount tecnico_interno s)
    (length (scannedItems s))
    (if Nat.ltb 0 total then total else stats_total s)
    (if Nat.ltb 0 total
     then (Z.of_nat total - Z.of_nat (length (scannedItems s)))%Z
     else 0%Z).

(** *** Session handlers *)

Definition startScanningSession : Update :=
  fun s =>
    let scannableProducts := filter scannable (products s) in
    (setSessionStartCounts
       (mkCounts (length (filter (hasStatus disponible) (products s)))
                 (length (filter (hasStatus reservado) (products s)))
                 (length (filter (hasStatus tecnico_interno) (products s)))
                 (length scannableProducts)) ;;
     setScannedItems (fun _ => []) ;;
     setMissingProducts (fun _ => []) ;;
     setIsScanning true ;;
     toast (ControlDeStockIniciado (length scannableProducts)
              (stats_count disponible s) (stats_count reservado s)
              (stats_count tecnico_interno s))) s.

Definition finalizeScanningSession : Update :=
  fun s =>
    let scannedCount := length (scannedItems s) in
    let expectedCount := c_total (sessionStartCounts s) in
    let expectedProducts := filter scannable (products s) in
    let scannedIMEIs := map item_imei (scannedItems s) in
    let notScannedProducts :=
      filter (fun p => negb (Js.includes scannedIMEIs (imei p))) expectedProducts in
    (setIsScanning false ;;
     setMissingProducts (fun _ => notScannedProducts) ;;
     (if Nat.eqb scannedCount expectedCount
         && Nat.eqb (length notScannedProducts) 0
      then toast (ControlCompletadoPerfecto scannedCount)
      else if Nat.ltb 0 (length notScannedProducts)
      then toast (ProductosFaltantesDetectados (length notScannedProducts))
      else toast (ControlIncompleto scannedCount expectedCount))) s.

(** [detectMissingProducts] and [toggleScanning] are defined by the
    component and bound to no control. *)
Definition detectMissingProducts : Update :=
  fun s =>
    if negb (isScanning s) && Nat.ltb 0 (length (scannedItems s))
       && Nat.ltb 0 (c_total (sessionStartCounts s))
    then
      let expectedProducts := filter scannable (products s) in
      let notScannedProducts :=
        filter (fun p => negb (Js.includes (scannedIMEIs s) (imei p))) expectedProducts in
      (setMissingProducts (fun _ => notScannedProducts) ;;
       (if Nat.ltb 0 (length notScannedProducts)
        then toast (ProductosNoEncontrados (length notScannedProducts))
        else skip)) s
    else skip s.

Definition toggleScanning : Update :=
  fun s =>
    if negb (isScanning s)
    then (setIsScanning true ;; setScannedItems (fun _ => [])) s
    else (setIsScanning false ;;
          toast (SesionFinalizada (length (scannedItems s)))) s.

(** [productArray.find(p => p.imei === x)] *)
Definition findProduct (x : string) (ps : list Product) : option Product :=
  find (fun p => String.eqb (imei p) x) ps.

(** [scannedItems.find(item => item.imei === x)] *)
Definition findScanned (x : string) (items : list ScannedItem) : option ScannedItem :=
  find (fun item => String.eqb (item_imei item) x) items.

(** [existingProduct.status !== 'disponible' && existingProduct.status !==
     'reservado' && existingProduct.status !== 'tecnico_interno'] *)
Definition notForVerification (p : Product) : bool :=
  negb (hasStatus disponible p) && negb (hasStatus reservado p)
  && negb (hasStatus tecnico_interno p).

(** [handleScan], the submit handler of the scan form; [now] is the value
    [new Date()] takes during the call. *)
Definition handleScan (now : Z) : Update :=
  fun s =>
    let x := Js.trim (imeiInput s) in
    if Js.truthy x then
      let existingProduct := findProduct x (products s) in
      let alreadyScanned := findScanned x (scannedItems s) in
      let record : Update :=
        (match alreadyScanned with
         | None =>
             let newItem :=
               mkScannedItem x existingProduct now
                 (match existingProduct with Some _ => found | None => not_found end) in
             setScannedItems (cons newItem) ;;
             match existingProduct with
             | Some p => toast (ProductoVerificado p)
             | None => toast (ImeiNoEncontrado x)
             end
         | Some _ => toast ImeiYaEscaneado
         end) ;;
        setImeiInput "" in
      match existingProduct with
      | Some p =>
          if notForVerification p
          then (toast (ProductoNoValido (status p)) ;; setImeiInput "") s
          else record s
      | None => record s
      end
    else skip s.

(** One scan as the operator performs it: the input field receives [raw]
    ([onChange]) and the form is submitted. *)
Definition scan (now : Z) (raw : string) : Update :=
  setImeiInput raw ;; handleScan now.

(** *** Missing-item remediation *)

(** The body of the [PATCH /api/products/:id] request, without the free-text
    observation and the user id. *)
Record PatchRequest : Type := mkPatchRequest {
  req_id : Z;
  req_status : Status
}.

(** What the awaited [fetch] brings back: a response with [ok] set, a
    response without it whose JSON body may carry a [message], or a
    rejection (of [fetch] itself or of [response.json()]), which lands in
    the [catch] block. *)
Inductive PatchOutcome : Type :=
| ResponseOk
| ResponseNotOk (message : option string)
| Rejected.

(** [errorData.message || 'Error desconocido'] *)
Definition messageOr (message : option string) : string :=
  match message with
  | Some m => if Js.truthy m then m else "Error desconocido"
  | None => "Error desconocido"
  end.

(** [await refetch()]: the query data is replaced when the refetch brings
    data and kept when it fails; [refetch] does not reject. *)
Definition refetch (data : option (list Product)) : Update :=
  match data with
  | Some ps => setProducts ps
  | None => skip
  end.

Definition markAsLostRequest (product : Product) : PatchRequest :=
  mkPatchRequest (id product) extravio.

(** [handleMarkAsLost] from the point where the request [markAsLostRequest]
    settles with [outcome]; the functional update of [missingProducts]
    acts on the state of that moment. *)
Definition handleMarkAsLost (product : Product) (outcome : PatchOutcome)
    (data : option (list Product)) : Update :=
  match outcome with
  | ResponseOk =>
      setMissingProducts (filter (fun p => negb (Z.eqb (id p) (id product)))) ;;
      refetch data ;;
      toast (EstadoActualizado (model product))
  | ResponseNotOk message => toast (ErrorAlActualizar (messageOr message))
  | Rejected => toast ErrorNoSePudoActualizar
  end.

Definition markAsFoundRequest (product : Product) : PatchRequest :=
  mkPatchRequest (id product) disponible.

Definition handleMarkAsFound (product : Product) (outcome : PatchOutcome)
    (data : option (list Product)) : Update :=
  match outcome with
  | ResponseOk =>
      refetch data ;;
      toast (ProductoEncontrado (model product))
  | ResponseNotOk message => toast (ErrorAlActualizar (messageOr message))
  | Rejected => toast ErrorNoSePudoActualizar
  end.

(** The inventory writer as [handleMarkAsLost] meets it: what the awaited
    [fetch] brings back for a request. *)
Definition Writer : Type := PatchRequest -> PatchOutcome.

(** [handleMarkAsLost] from the click on: the request for [product] is put
    to the writer and the handler goes on with what comes back. *)
Definition handleMarkAsLostVia (fetch : Writer) (data : option (list Product))
    (product : Product) : Update :=
  handleMarkAsLost product (fetch (markAsLostRequest product)) data.

(** The [onClick] of the button "Limpiar Lista". *)
Definition limpiarLista : Update :=
  setMissingProducts (fun _ => []) ;;
  setScannedItems (fun _ => []) ;;
  setSessionStartCounts (mkCounts 0 0 0 0) ;;
  toast ListaLimpiada.

(** *** The component as a transition system *)

(** Everything that changes the modelled cells: the controls of the page
    and the arrival of query data. *)
Inductive Event : Type :=
| DataArrived (ps : list Product)
| InputChanged (v : string)
| FormSubmitted (now : Z)
| StartClicked
| FinalizeClicked
| DetectMissing
| Toggle
| MarkLostSettled (product : Product) (outcome : PatchOutcome)
    (data : option (list Product))
| MarkFoundSettled (product : Product) (outcome : PatchOutcome)
    (data : option (list Product))
| ClearClicked.

Definition step (e : Event) : Update :=
  match e with
  | DataArrived ps => setProducts ps
  | InputChanged v => setImeiInput v
  | FormSubmitted now => handleScan now
  | StartClicked => startScanningSession
  | FinalizeClicked => finalizeScanningSession
  | DetectMissing => detectMissingProducts
  | Toggle => toggleScanning
  | MarkLostSettled product outcome data => handleMarkAsLost product outcome data
  | MarkFoundSettled product outcome data => handleMarkAsFound product outcome data
  | ClearClicked => limpiarLista
  end.

(** A series of scans, each with its time and raw input, in arrival order. *)
Fixpoint scans (inputs : list (Z * string)) : Update :=
  match inputs with
  | [] => skip
  | (now, raw) :: rest => scan now raw ;; scans rest
  end.

(** The three ways a finalized session is reported. *)
Inductive Outcome : Type := complete | discrepancy | incomplete.

Definition outcomeOf (t : Toast) : option Outcome :=
  match t with
  | ControlCompletadoPerfecto _ => Some complete
  | ProductosFaltantesDetectados _ => Some discrepancy
  | ControlIncompleto _ _ => Some incomplete
  | _ => None
  end.

(** The IMEI a notification reports as recorded, if it reports one. *)
Definition recordedImei (t : Toast) : option string :=
  match t with
  | ProductoVerificado p => Some (imei p)
  | ImeiNoEncontrado x => Some x
  | _ => None
  end.

(** *** Counters of [stats] *)

(** The counters of [stats]; its price sums and averages are floating-point
    numbers and its model and colour tables are left out. *)
Record Stats : Type := mkStats {
  st_total : nat;
  st_disponible : nat;
  st_reservado : nat;
  st_vendido : nat;
  st_tecnico_interno : nat;
  st_extravios : nat
}.

Definition stats (s : State) : Stats :=
  mkStats (length (products s))
          (length (filter (hasStatus disponible) (products s)))
          (length (filter (hasStatus reservado) (products s)))
          (length (filter (hasStatus vendido) (products s)))
          (length (filter (hasStatus tecnico_interno) (products s)))
          (length (filter (hasStatus extravio) (products s))).

(** *** The controls of the page *)

(** What the markup shows: [!isScanning ? <start> : <finalize>], the scan
    form under [isScanning &&], and the missing-products panel, which holds
    the buttons "Marcar Extravio", "Limpiar Lista" and "Nuevo Control",
    under [!isScanning && missingProducts.length > 0]. *)
Definition startButtonShown (s : State) : bool := negb (isScanning s).
Definition finalizeButtonShown (s : State) : bool := isScanning s.
Definition scanFormShown (s : State) : bool := isScanning s.
Definition missingPanelShown (s : State) : bool :=
  negb (isScanning s) && Nat.ltb 0 (length (missingProducts s)).

(** What the operator and the network can make happen.  A click counts only
    where its control is shown; query data and the answers to the update
    requests arrive at any time. *)
Inductive UiEvent : Type :=
| UiData (ps : list Product)
| UiStart
| UiFinalize
| UiType (v : string)
| UiSubmit (now : Z)
| UiClear
| UiLostSettled (product : Product) (outcome : PatchOutcome)
    (data : option (list Product))
| UiFoundSettled (product : Product) (outcome : PatchOutcome)
    (data : option (list Product)).

Definition uiEnabled (e : UiEvent) (s : State) : bool :=
  match e with
  | UiStart => startButtonShown s
  | UiFinalize => finalizeButtonShown s
  | UiType _ => scanFormShown s
  | UiSubmit _ => scanFormShown s
  | UiClear => missingPanelShown s
  | UiData _ => true
  | UiLostSettled _ _ _ => true
  | UiFoundSettled _ _ _ => true
  end.

Definition uiStep (e : UiEvent) (s : State) : State :=
  match e with
  | UiData ps => fst (setProducts ps s)
  | UiStart => fst (startScanningSession s)
  | UiFinalize => fst (finalizeScanningSession s)
  | UiType v => fst (setImeiInput v s)
  | UiSubmit now => fst (handleScan now s)
  | UiClear => fst (limpiarLista s)
  | UiLostSettled product outcome data =>
      fst (handleMarkAsLost product outcome data s)
  | UiFoundSettled product outcome data =>
      fst (handleMarkAsFound product outcome data s)
  end.

(** The state after a series of events, if each one was possible when it
    came. *)
Fixpoint uiRun (es : list UiEvent) (s : State) : option State :=
  match es with
  | [] => Some s
  | e :: rest => if uiEnabled e s then uiRun rest (uiStep e s) else None
  end.

End StockControlFinal.

(** ** The earlier stock-control page *)

Module StockControlPage.

Inductive Toast : Type :=
| ImeiEscaneado (x : string)
| ImeiDuplicado (x : string)
| SesionFinalizada (scanned : nat).

Record State : Type := mkState {
  isScanning : bool;
  imeiInput : string;
  scannedItems : list string
}.

Definition Update : Type := State -> State * list Toast.

Definition skip : Update := fun s => (s, []).

Definition andThen (a b : Update) : Update :=
  fun s =>
    let (s1, t1) := a s in
    let (s2, t2) := b s1 in
    (s2, t1 ++ t2).

Notation "a ;; b" := (andThen a b) (at level 61, right associativity).

Definition toast (t : Toast) : Update := fun s => (s, [t]).

Definition setIsScanning (b : bool) : Update :=
  fun s => (mkState b (imeiInput s) (scannedItems s), []).

Definition setImeiInput (v : string) : Update :=
  fun s => (mkState (isScanning s) v (scannedItems s), []).

Definition setScannedItems (f : list string -> list string) : Update :=
  fun s => (mkState (isScanning s) (imeiInput s) (f (scannedItems s)), []).

(** [handleImeiScan], the key-down handler of the IMEI input; [key] is
    [e.key]. *)
Definition handleImeiScan (key : string) : Update :=
  fun s =>
    if String.eqb key "Enter" && Js.truthy (Js.trim (imeiInput s)) then
      let imei := Js.trim (imeiInput s) in
      ((if negb (Js.includes (scannedItems s) imei)
        then setScannedItems (fun prev => prev ++ [imei]) ;;
             toast (ImeiEscaneado imei)
        else toast (ImeiDuplicado imei)) ;;
       setImeiInput "") s
    else skip s.

Definition startScanning : Update :=
  setIsScanning true ;; setScannedItems (fun _ => []).

Definition stopScanning : Update :=
  fun s => (setIsScanning false ;;
            toast (SesionFinalizada (length (scannedItems s)))) s.

(** Everything that changes the three cells: typing into the IMEI field, a
    key pressed in it, and the two buttons of the session. *)
Inductive Event : Type :=
| InputChanged (v : string)
| KeyDown (key : string)
| StartClicked
| StopClicked.

Definition step (e : Event) : Update :=
  match e with
  | InputChanged v => setImeiInput v
  | KeyDown key => handleImeiScan key
  | StartClicked => startScanning
  | StopClicked => stopScanning
  end.

(** One scan: the field receives [raw] and Enter is pressed. *)
Definition scan (raw : string) : Update :=
  setImeiInput raw ;; handleImeiScan "Enter".

Fixpoint scans (inputs : list string) : Update :=
  match inputs with
  | [] => skip
  | raw :: rest => scan raw ;; scans rest
  end.

Definition recordedImei (t : Toast) : option string :=
  match t with
  | ImeiEscaneado x => Some x
  | _ => None
  end.

(** *** The product list of the earlier page *)

(** [interface Product] of this page: every field but [id] is a string. *)
Record Product : Type := mkProduct {
  id : Z;
  imei : string;
  model : string;
  storage : string;
  color : string;
  status : string;
  entryDate : string;
  costPrice : string;
  provider : string;
  quality : string;
  battery : string
}.

(** The data of a query: an array of products or something else. *)
Inductive QueryData : Type :=
| notAnArray
| array (ps : list Product).

(** [Array.isArray(d) ? d : []] *)
Definition asArray (d : QueryData) : list Product :=
  match d with
  | notAnArray => []
  | array ps => ps
  end.

(** [Array.isArray(d) && d.length > 0] *)
Definition nonEmptyArray (d : QueryData) : bool :=
  match d with
  | notAnArray => false
  | array ps => Nat.ltb 0 (length ps)
  end.

Definition statusIs (name : string) (p : Product) : bool :=
  String.eqb (status p) name.

Record Stats : Type := mkStats {
  totalProducts : nat;
  disponibleCount : nat;
  reservadoCount : nat;
  vendidoCount : nat;
  extraviosCount : nat
}.

(** [stats], with the numbers it falls back to without products. *)
Definition stats (allProducts extraviosProducts : QueryData) : Stats :=
  mkStats
    (if nonEmptyArray allProducts then length (asArray allProducts) else 14)
    (if nonEmptyArray allProducts
     then length (filter (statusIs "disponible") (asArray allProducts)) else 4)
    (if nonEmptyArray allProducts
     then length (filter (statusIs "reservado") (asArray allProducts)) else 2)
    (if nonEmptyArray allProducts
     then length (filter (statusIs "vendido") (asArray allProducts)) else 8)
    (if nonEmptyArray extraviosProducts
     then length (asArray extraviosProducts) else 0).

(** The cell [activeFilter]. *)
Inductive Filter : Type :=
| filterAll
| filterDisponible
| filterReservado
| filterExtravio.

Definition filterName (f : Filter) : string :=
  match f with
  | filterAll => "all"
  | filterDisponible => "disponible"
  | filterReservado => "reservado"
  | filterExtravio => "extravio"
  end.

(** The test of the search: the lowered query occurs in the lowered IMEI,
    model or colour. *)
Definition matchesSearch (searchQuery : string) (product : Product) : bool :=
  Js.strIncludes (Js.toLowerCase (imei product)) (Js.toLowerCase searchQuery)
  || Js.strIncludes (Js.toLowerCase (model product)) (Js.toLowerCase searchQuery)
  || Js.strIncludes (Js.toLowerCase (color product)) (Js.toLowerCase searchQuery).

Definition getFilteredProducts (activeFilter : Filter) (searchQuery : string)
    (allProducts extraviosProducts : QueryData) : list Product :=
  let safeExtraviosProducts := asArray extraviosProducts in
  let safeAllProducts := asArray allProducts in
  let products :=
    match activeFilter with
    | filterAll => safeAllProducts
    | filterExtravio => safeExtraviosProducts
    | _ => filter (statusIs (filterName activeFilter)) safeAllProducts
    end in
  if Js.truthy (Js.trim searchQuery)
  then filter (matchesSearch searchQuery) products
  else products.

End StockControlPage.

(** * Vocabulary of the statements *)

Import StockControlFinal.

(** The three statuses subject to physical verification. *)
Definition scannableStatus (st : Status) : Prop :=
  st = disponible \/ st = reservado \/ st = tecnico_interno.

(** The state after a scan that records [it]: the item is put at the head
    of the log and the input field is emptied. *)
Definition recorded (it : ScannedItem) (s : State) : State :=
  mkState (products s) (isScanning s) "" (it :: scannedItems s)
    (sessionStartCounts s) (missingProducts s).

(** The state after a scan that records nothing: only the input field is
    emptied. *)
Definition cleared (s : State) : State :=
  mkState (products s) (isScanning s) "" (scannedItems s)
    (sessionStartCounts s) (missingProducts s).

(** Sample records. *)
Definition phoneA : Product := mkProduct 1 7 "A" "iPhone 12" "64GB" "negro" disponible.
Definition phoneB : Product := mkProduct 2 7 "B" "iPhone 13" "128GB" "rojo" reservado.
Definition phoneC : Product := mkProduct 3 7 "C" "iPhone 11" "64GB" "blanco" vendido.
Definition phoneD : Product := mkProduct 4 7 "D" "iPhone 14" "256GB" "azul" tecnico_interno.

(** A session just started on the four sample records. *)
Definition sampleSession : State :=
  fst (startScanningSession (initialState [phoneA; phoneB; phoneC; phoneD])).

(** The IMEIs a series of notifications reports as recorded, in the order
    of the notifications. *)
Definition recordedImeis (ts : list Toast) : list string :=
  flat_map (fun t => match recordedImei t with Some x => [x] | None => [] end) ts.

Definition pageRecordedImeis (ts : list StockControlPage.Toast) : list string :=
  flat_map (fun t => match StockControlPage.recordedImei t with
                     | Some x => [x]
                     | None => []
                     end) ts.

(** The two notifications that report a failed update. *)
Definition reportsFailure (t : Toast) : Prop :=
  t = ErrorNoSePudoActualizar \/ exists m, t = ErrorAlActualizar m.

(** The number of log entries bound to a record of status [st]. *)
Definition boundCount (st : Status) (log : list ScannedItem) : nat :=
  length (filter (fun it => match item_product it with
                            | Some p => hasStatus st p
                            | None => false
                            end) log).

(** What [findProduct] contributes to the count of status [st]. *)
Definition foundCount (st : Status) (r : option Product) : nat :=
  match r with
  | Some p => if hasStatus st p then 1 else 0
  | None => 0
  end.

Definition matched (st : Status) (imeis : list string) (ps : list Product) : nat :=
  length (filter (hasStatus st) (filter (fun p => Js.includes imeis (imei p)) ps)).

(** The facts a session keeps from its start through its scans: the
    snapshot it was started on, the baseline taken from it, and the
    agreement of the two ways of counting the scanned records. *)
Record SessionInv (ps : list Product) (s : State) : Prop := mkSessionInv {
  inv_products : products s = ps;
  inv_active : isScanning s = true;
  inv_baseline :
    sessionStartCounts s
    = mkCounts (length (filter (hasStatus disponible) ps))
               (length (filter (hasStatus reservado) ps))
               (length (filter (hasStatus tecnico_interno) ps))
               (length (filter scannable ps));
  inv_matched :
    forall st, matched st (scannedIMEIs s) ps = boundCount st (scannedItems s)
}.

(** A log entry as [handleScan] builds it: a trimmed, non-empty IMEI; a
    bound record, scannable and of that IMEI, with [found]; no record with
    [not_found]. *)
Definition wellFormedItem (it : ScannedItem) : Prop :=
  item_imei it <> ""
  /\ Js.trim (item_imei it) = item_imei it
  /\ match item_product it with
     | Some p => item_status it = found /\ scannable p = true
                 /\ imei p = item_imei it
     | None => item_status it = not_found
     end.

(** The number of log entries bound to no record. *)
Definition unknownCount (log : list ScannedItem) : nat :=
  length (filter (fun it => match item_product it with
                            | Some _ => false
                            | None => true
                            end) log).

(** A scan of [x] is taken into the log of a session on the snapshot [ps]:
    [x] is not empty and the record found for it, if any, is scannable. *)
Definition admissible (ps : list Product) (x : string) : Prop :=
  x <> "" /\ forall p, findProduct x ps = Some p -> scannable p = true.

(** What holds in every state the page reaches under its controls. *)
Record PageInv (s : State) : Prop := mkPageInv {
  pi_distinct : NoDup (scannedIMEIs s);
  pi_wellFormed : Forall wellFormedItem (scannedItems s);
  pi_active : isScanning s = true -> missingProducts s = [];
  pi_scannable : Forall (fun p => scannable p = true) (missingProducts s);
  pi_unscanned :
    Forall (fun p => ~ In (imei p) (scannedIMEIs s)) (missingProducts s);
  pi_total :
    c_total (sessionStartCounts s)
    = c_disponible (sessionStartCounts s) + c_reservado (sessionStartCounts s)
      + c_tecnico_interno (sessionStartCounts s)
}.

(** * Properties *)

(** ** Facts about the primitives *)

Lemma status_eqb_eq (a b : Status) : status_eqb a b = true <-> a = b.
Proof.
  split.
  - destruct a, b; simpl; intro H; try reflexivity; discriminate H.
  - intros ->. destruct b; reflexivity.
Qed.

Lemma status_eq_dec (a b : Status) : {a = b} + {a <> b}.
Proof. decide equality. Defined.

Lemma hasStatus_true (st : Status) (p : Product) :
  hasStatus st p = true <-> status p = st.
Proof. unfold hasStatus. apply status_eqb_eq. Qed.

Lemma scannable_true (p : Product) :
  scannable p = true <-> scannableStatus (status p).
Proof.
  unfold scannable, scannableStatus.
  rewrite !orb_true_iff, !hasStatus_true. tauto.
Qed.

Lemma notForVerification_scannable (p : Product) :
  notForVerification p = negb (scannable p).
Proof.
  unfold notForVerification, scannable. rewrite !negb_orb. reflexivity.
Qed.

Lemma includes_true (xs : list string) (x : string) :
  Js.includes xs x = true <-> In x xs.
Proof.
  unfold Js.includes. rewrite existsb_exists. split.
  - intros [y [Hy He]]. apply String.eqb_eq in He. subst y. exact Hy.
  - intro H. exists x. split; [exact H | apply String.eqb_refl].
Qed.

Lemma includes_false (xs : list string) (x : string) :
  Js.includes xs x = false <-> ~ In x xs.
Proof.
  rewrite <- includes_true. destruct (Js.includes xs x); split; intro H;
    try reflexivity; try discriminate; try (intro; discriminate).
  exfalso. apply H. reflexivity.
Qed.

Lemma findScanned_None (x : string) (items : list ScannedItem) :
  findScanned x items = None <-> ~ In x (map item_imei items).
Proof.
  unfold findScanned. induction items as [|it items IH]; simpl.
  - tauto.
  - destruct (String.eqb (item_imei it) x) eqn:E.
    + apply String.eqb_eq in E. split; [discriminate | intro H; exfalso; apply H; left; exact E].
    + apply String.eqb_neq in E. rewrite IH. tauto.
Qed.

Lemma findScanned_Some (x : string) (items : list ScannedItem) :
  In x (map item_imei items) -> exists it, findScanned x items = Some it.
Proof.
  intro H. destruct (findScanned x items) as [it|] eqn:E.
  - exists it. reflexivity.
  - apply findScanned_None in E. contradiction.
Qed.

Lemma findProduct_Some (x : string) (ps : list Product) (p : Product) :
  findProduct x ps = Some p -> In p ps /\ imei p = x.
Proof.
  unfold findProduct. intro H. apply find_some in H.
  destruct H as [Hin He]. apply String.eqb_eq in He. split; assumption.
Qed.

Lemma findProduct_None (x : string) (ps : list Product) :
  findProduct x ps = None <-> ~ In x (map imei ps).
Proof.
  unfold findProduct. induction ps as [|q ps IH]; simpl.
  - tauto.
  - destruct (String.eqb (imei q) x) eqn:E.
    + apply String.eqb_eq in E. split; [discriminate | intro H; exfalso; apply H; left; exact E].
    + apply String.eqb_neq in E. rewrite IH. tauto.
Qed.

(** With IMEI as a key of the snapshot, [findProduct] returns the record of
    the IMEI. *)
Lemma findProduct_unique (ps : list Product) (p : Product) :
  NoDup (map imei ps) -> In p ps -> findProduct (imei p) ps = Some p.
Proof.
  unfold findProduct. induction ps as [|q ps IH]; simpl; intros Hnd Hin.
  - contradiction.
  - inversion Hnd as [|? ? Hq Hnd']; subst.
    destruct Hin as [->|Hin].
    + rewrite String.eqb_refl. reflexivity.
    + destruct (String.eqb (imei q) (imei p)) eqn:E.
      * apply String.eqb_eq in E. exfalso. apply Hq. rewrite E.
        apply in_map. exact Hin.
      * apply IH; assumption.
Qed.

Lemma filter_hasStatus_count (st : Status) (ps : list Product) :
  length (filter (hasStatus st) ps) = count_occ status_eq_dec (map status ps) st.
Proof.
  induction ps as [|p ps IH]; simpl.
  - reflexivity.
  - destruct (status_eq_dec (status p) st) as [E|E].
    + apply hasStatus_true in E. rewrite E. simpl. rewrite IH. reflexivity.
    + destruct (hasStatus st p) eqn:H.
      * apply hasStatus_true in H. contradiction.
      * exact IH.
Qed.

(** The scannable records are the records of the three scannable statuses,
    which exclude one another. *)
Lemma scannable_count (ps : list Product) :
  length (filter scannable ps)
  = length (filter (hasStatus disponible) ps)
    + length (filter (hasStatus reservado) ps)
    + length (filter (hasStatus tecnico_interno) ps).
Proof.
  induction ps as [|p ps IH]; simpl.
  - reflexivity.
  - unfold scannable, hasStatus in *. destruct (status p); simpl; lia.
Qed.

(** ** Start of a session *)

(** C7: [startScanningSession] stores as baseline the number of records of
    each scannable status in the snapshot, with a total that is the sum of
    the three, empties the scan log and the missing-record list, and makes
    the session active; the snapshot and the input field are untouched. *)
Theorem startScanningSession_baseline (s : State) :
  let s' := fst (startScanningSession s) in
  let b := sessionStartCounts s' in
  c_disponible b = count_occ status_eq_dec (map status (products s)) disponible
  /\ c_reservado b = count_occ status_eq_dec (map status (products s)) reservado
  /\ c_tecnico_interno b
     = count_occ status_eq_dec (map status (products s)) tecnico_interno
  /\ c_total b = c_disponible b + c_reservado b + c_tecnico_interno b
  /\ scannedItems s' = []
  /\ missingProducts s' = []
  /\ isScanning s' = true
  /\ products s' = products s
  /\ imeiInput s' = imeiInput s.
Proof.
  unfold startScanningSession; simpl.
  rewrite <- !filter_hasStatus_count.
  repeat split; try reflexivity.
  apply scannable_count.
Qed.

(** ** End of a session *)

Lemma finalize_missing (s : State) :
  missingProducts (fst (finalizeScanningSession s))
  = filter (fun p => negb (Js.includes (scannedIMEIs s) (imei p)))
      (filter scannable (products s)).
Proof.
  unfold finalizeScanningSession, scannedIMEIs; simpl.
  destruct (Nat.eqb _ _ && Nat.eqb _ 0); [reflexivity|].
  destruct (Nat.ltb 0 _); reflexivity.
Qed.

Lemma finalize_toast (s : State) :
  let missing := missingProducts (fst (finalizeScanningSession s)) in
  snd (finalizeScanningSession s)
  = [if Nat.eqb (length (scannedItems s)) (c_total (sessionStartCounts s))
        && Nat.eqb (length missing) 0
     then ControlCompletadoPerfecto (length (scannedItems s))
     else if Nat.ltb 0 (length missing)
     then ProductosFaltantesDetectados (length missing)
     else ControlIncompleto (length (scannedItems s))
            (c_total (sessionStartCounts s))].
Proof.
  simpl. rewrite finalize_missing.
  unfold finalizeScanningSession, scannedIMEIs; simpl.
  destruct (Nat.eqb _ _ && Nat.eqb _ 0); [reflexivity|].
  destruct (Nat.ltb 0 _); reflexivity.
Qed.

Lemma finalize_rest (s : State) :
  let s' := fst (finalizeScanningSession s) in
  isScanning s' = false /\ scannedItems s' = scannedItems s
  /\ products s' = products s /\ sessionStartCounts s' = sessionStartCounts s.
Proof.
  unfold finalizeScanningSession; simpl.
  destruct (Nat.eqb _ _ && Nat.eqb _ 0); [repeat split|].
  destruct (Nat.ltb 0 _); repeat split.
Qed.

(** C1: [finalizeScanningSession] leaves in [missingProducts] exactly the
    records of the snapshot that have a scannable status and whose IMEI is
    not in the scan log (in snapshot order), and reports one of three
    outcomes: complete iff the number of scans equals the expected total and
    nothing is missing; discrepancy iff something is missing, whatever the
    counts; incomplete otherwise. *)
Theorem finalize_missing_and_outcome (s : State) :
  let s' := fst (finalizeScanningSession s) in
  let missing := missingProducts s' in
  (forall p, In p missing <->
     In p (products s) /\ scannableStatus (status p)
     /\ ~ In (imei p) (map item_imei (scannedItems s)))
  /\ missing
     = filter (fun p => scannable p && negb (Js.includes (scannedIMEIs s) (imei p)))
         (products s)
  /\ scannedItems s' = scannedItems s
  /\ exists t o,
       snd (finalizeScanningSession s) = [t] /\ outcomeOf t = Some o
       /\ (o = complete <->
             length (scannedItems s) = c_total (sessionStartCounts s)
             /\ missing = [])
       /\ (o = discrepancy <-> missing <> [])
       /\ (o = incomplete <->
             ~ (length (scannedItems s) = c_total (sessionStartCounts s)
                /\ missing = [])
             /\ ~ missing <> []).
Proof.
  intros s' missing.
  assert (Hm : missing
     = filter (fun p => negb (Js.includes (scannedIMEIs s) (imei p)))
         (filter scannable (products s))) by apply finalize_missing.
  split; [|split; [|split]].
  - intro p. rewrite Hm, !filter_In, negb_true_iff, includes_false, scannable_true.
    unfold scannedIMEIs. tauto.
  - rewrite Hm. clear. induction (products s) as [|p ps IH]; simpl.
    + reflexivity.
    + destruct (scannable p); simpl; [|exact IH].
      destruct (negb _); simpl; rewrite IH; reflexivity.
  - apply finalize_rest.
  - pose proof (finalize_toast s) as Ht. simpl in Ht. fold s' in Ht. fold missing in Ht.
    destruct (Nat.eqb (length (scannedItems s)) (c_total (sessionStartCounts s))) eqn:Ec;
      [apply Nat.eqb_eq in Ec | apply Nat.eqb_neq in Ec];
      destruct missing as [|m ms]; simpl in Ht;
      eexists; eexists; (split; [exact Ht|]); simpl; (split; [reflexivity|]);
      repeat split; intros; try discriminate; try congruence;
      intuition (try discriminate; try congruence).
Qed.

(** C3: a session that is started and finalized at once, with no scan in
    between, reports as missing all scannable records of the snapshot, and
    its outcome is discrepancy iff there is such a record (and complete
    when there is none). *)
Theorem start_then_finalize (s : State) :
  let s1 := fst (startScanningSession s) in
  let s2 := fst (finalizeScanningSession s1) in
  missingProducts s2 = filter scannable (products s)
  /\ (forall p, In p (missingProducts s2) <->
        In p (products s) /\ scannableStatus (status p))
  /\ exists t o,
       snd ((startScanningSession ;; finalizeScanningSession) s)
       = snd (startScanningSession s) ++ [t]
       /\ outcomeOf t = Some o
       /\ (o = discrepancy <-> missingProducts s2 <> [])
       /\ (o = complete <-> missingProducts s2 = []).
Proof.
  intros s1 s2.
  assert (Hm : missingProducts s2 = filter scannable (products s)).
  { unfold s2. rewrite finalize_missing. unfold s1, startScanningSession; simpl.
    unfold scannedIMEIs; simpl.
    induction (filter scannable (products s)) as [|p ps IH]; simpl;
      [reflexivity | rewrite IH; reflexivity]. }
  split; [exact Hm|]. split.
  - intro p. rewrite Hm, filter_In, scannable_true. tauto.
  - pose proof (finalize_toast s1) as Ht. simpl in Ht.
    fold s2 in Ht. rewrite Hm in Ht.
    assert (Hs : snd ((startScanningSession ;; finalizeScanningSession) s)
                 = snd (startScanningSession s) ++ snd (finalizeScanningSession s1)).
    { unfold andThen, s1. destruct (startScanningSession s) as [a ta]; simpl.
      destruct (finalizeScanningSession a); reflexivity. }
    rewrite Hs, Ht, Hm.
    replace (length (scannedItems s1)) with 0 by reflexivity.
    replace (c_total (sessionStartCounts s1))
      with (length (filter scannable (products s))) by reflexivity.
    destruct (filter scannable (products s)) as [|p ps]; simpl;
      eexists; eexists; (split; [reflexivity|]); simpl; (split; [reflexivity|]);
      split; split; intro H; try reflexivity; try discriminate; try congruence.
Qed.

(** ** Facts about [trim] *)

Lemma truthy_true (x : string) : Js.truthy x = true <-> x <> "".
Proof. destruct x; simpl; split; intro H; congruence. Qed.

Lemma trimStart_empty (s : string) :
  Js.trimStart s = "" <-> Js.allWhiteSpace s = true.
Proof.
  induction s as [|c r IH]; simpl.
  - tauto.
  - destruct (Js.isWhiteSpace c); simpl; [exact IH|]. split; discriminate.
Qed.

Lemma trimEnd_empty (s : string) :
  Js.trimEnd s = "" <-> Js.allWhiteSpace s = true.
Proof.
  induction s as [|c r IH]; simpl.
  - tauto.
  - destruct (Js.trimEnd r) eqn:E.
    + destruct (Js.isWhiteSpace c); simpl.
      * rewrite <- IH. tauto.
      * split; discriminate.
    + split; [discriminate|]. rewrite andb_true_iff. intros [_ H].
      apply IH in H. discriminate H.
Qed.

Lemma allWhiteSpace_trimStart (s : string) :
  Js.allWhiteSpace (Js.trimStart s) = Js.allWhiteSpace s.
Proof.
  induction s as [|c r IH]; simpl.
  - reflexivity.
  - destruct (Js.isWhiteSpace c) eqn:E; simpl; [exact IH | rewrite E; reflexivity].
Qed.

(** The trimmed input is empty exactly for the empty string and the strings
    of white space. *)
Lemma trim_empty (s : string) : Js.trim s = "" <-> Js.allWhiteSpace s = true.
Proof.
  unfold Js.trim. rewrite trimEnd_empty, allWhiteSpace_trimStart. tauto.
Qed.

(** ** One scan *)

Lemma handleScan_blank (now : Z) (s : State) :
  Js.trim (imeiInput s) = "" -> handleScan now s = (s, []).
Proof. unfold handleScan. intros ->. reflexivity. Qed.

Lemma handleScan_rejected (now : Z) (s : State) (p : Product) :
  Js.trim (imeiInput s) <> "" ->
  findProduct (Js.trim (imeiInput s)) (products s) = Some p ->
  scannable p = false ->
  handleScan now s = (cleared s, [ProductoNoValido (status p)]).
Proof.
  intros Hx Hp Hs. apply truthy_true in Hx. unfold handleScan.
  rewrite Hx, Hp, notForVerification_scannable, Hs. reflexivity.
Qed.

Lemma handleScan_found (now : Z) (s : State) (p : Product) :
  Js.trim (imeiInput s) <> "" ->
  findProduct (Js.trim (imeiInput s)) (products s) = Some p ->
  scannable p = true ->
  ~ In (Js.trim (imeiInput s)) (scannedIMEIs s) ->
  handleScan now s
  = (recorded (mkScannedItem (Js.trim (imeiInput s)) (Some p) now found) s,
     [ProductoVerificado p]).
Proof.
  intros Hx Hp Hs Hn. apply truthy_true in Hx. apply findScanned_None in Hn.
  unfold handleScan.
  rewrite Hx, Hp, notForVerification_scannable, Hs, Hn. reflexivity.
Qed.

Lemma handleScan_unknown (now : Z) (s : State) :
  Js.trim (imeiInput s) <> "" ->
  findProduct (Js.trim (imeiInput s)) (products s) = None ->
  ~ In (Js.trim (imeiInput s)) (scannedIMEIs s) ->
  handleScan now s
  = (recorded (mkScannedItem (Js.trim (imeiInput s)) None now not_found) s,
     [ImeiNoEncontrado (Js.trim (imeiInput s))]).
Proof.
  intros Hx Hp Hn. apply truthy_true in Hx. apply findScanned_None in Hn.
  unfold handleScan. rewrite Hx, Hp, Hn. reflexivity.
Qed.

Lemma handleScan_duplicate (now : Z) (s : State) :
  Js.trim (imeiInput s) <> "" ->
  (forall p, findProduct (Js.trim (imeiInput s)) (products s) = Some p ->
             scannable p = true) ->
  In (Js.trim (imeiInput s)) (scannedIMEIs s) ->
  handleScan now s = (cleared s, [ImeiYaEscaneado]).
Proof.
  intros Hx Hp Hin. apply truthy_true in Hx.
  apply findScanned_Some in Hin. destruct Hin as [it Hit].
  unfold handleScan. rewrite Hx, Hit.
  destruct (findProduct _ _) as [p|] eqn:E; [|reflexivity].
  rewrite notForVerification_scannable, (Hp p eq_refl). reflexivity.
Qed.

Lemma scan_eq (now : Z) (raw : string) (s : State) :
  scan now raw s = handleScan now (fst (setImeiInput raw s)).
Proof.
  unfold scan, andThen; simpl. destruct (handleScan now _); reflexivity.
Qed.



(** The scan handler of the earlier page records an IMEI once as well. *)
Lemma handleImeiScan_twice (s : StockControlPage.State) (raw1 raw2 x : string) :
  Js.trim raw1 = x -> Js.trim raw2 = x -> x <> "" ->
  let s1 := fst (StockControlPage.scan raw1 s) in
  snd (StockControlPage.scan raw2 s1) = [StockControlPage.ImeiDuplicado x]
  /\ StockControlPage.scannedItems (fst (StockControlPage.scan raw2 s1))
     = StockControlPage.scannedItems s1
  /\ (~ In x (StockControlPage.scannedItems s) ->
      StockControlPage.scannedItems s1 = StockControlPage.scannedItems s ++ [x]).
Proof.
  intros H1 H2 Hx. apply truthy_true in Hx.
  unfold StockControlPage.scan, StockControlPage.andThen,
    StockControlPage.handleImeiScan; simpl.
  rewrite H1, Hx; simpl.
  destruct (Js.includes (StockControlPage.scannedItems s) x) eqn:E; simpl;
    rewrite H2, Hx; simpl.
  - rewrite E; simpl. repeat split. intro Hn.
    apply includes_true in E. contradiction.
  - assert (E' : Js.includes (StockControlPage.scannedItems s ++ [x]) x = true).
    { apply includes_true. apply in_or_app. right. left. reflexivity. }
    rewrite E'; simpl. repeat split.
Qed.

(** C6: in an active session, when the record found for the scanned IMEI
    has a status other than the three scannable ones, the scan is reported
    as not valid for verification, with the status of the record, and
    nothing changes but the input field, which is emptied: the scan log is
    the one before the scan. *)
Theorem handleScan_not_for_verification (now : Z) (s : State) (p : Product) :
  isScanning s = true ->
  Js.trim (imeiInput s) <> "" ->
  findProduct (Js.trim (imeiInput s)) (products s) = Some p ->
  ~ scannableStatus (status p) ->
  handleScan now s = (cleared s, [ProductoNoValido (status p)])
  /\ scannedItems (fst (handleScan now s)) = scannedItems s.
Proof.
  intros _ Hx Hp Hs.
  assert (E : scannable p = false).
  { destruct (scannable p) eqn:E; [|reflexivity].
    apply scannable_true in E. contradiction. }
  rewrite (handleScan_rejected now s p Hx Hp E). split; reflexivity.
Qed.

Lemma handleScan_not_for_verification_witness :
  let s := fst (setImeiInput "C" sampleSession) in
  handleScan 10 s = (cleared s, [ProductoNoValido vendido])
  /\ scannedItems (fst (handleScan 10 s)) = scannedItems s.
Proof.
  apply (handleScan_not_for_verification 10
           (fst (setImeiInput "C" sampleSession)) phoneC).
  - reflexivity.
  - discriminate.
  - reflexivity.
  - unfold scannableStatus. simpl. intros [H|[H|H]]; discriminate H.
Defined.

(** The statuses other than the three scannable ones are the sold, lost
    and repair-exit statuses. *)
Lemma not_scannableStatus (st : Status) :
  ~ scannableStatus st <->
  st = vendido \/ st = tecnico_externo \/ st = a_reparar \/ st = extravio.
Proof.
  unfold scannableStatus. destruct st; split; intro H;
    try (exfalso; apply H; tauto);
    try (intros [E|[E|E]]; discriminate E);
    try tauto;
    try (destruct H as [E|[E|[E|E]]]; discriminate E).
Qed.

(** An unknown IMEI that is scanned a second time is treated as a duplicate:
    in the active session that has recorded the unknown IMEI X once, the
    second scan of X records nothing and is reported as already scanned,
    not as unknown. *)
Lemma handleScan_unknown_rescanned :
  let s := fst ((startScanningSession ;; scan 10 "X" ;; setImeiInput "X")
                  (initialState [phoneA])) in
  isScanning s = true
  /\ Js.trim (imeiInput s) = "X"
  /\ findProduct "X" (products s) = None
  /\ snd (handleScan 11 s) = [ImeiYaEscaneado]
  /\ snd (handleScan 11 s) <> [ImeiNoEncontrado "X"]
  /\ scannedItems (fst (handleScan 11 s)) = scannedItems s.
Proof.
  repeat split; try reflexivity. simpl. discriminate.
Qed.

(** C4, amended: in an active session, a scan of a non-empty trimmed IMEI
    that matches no record of the snapshot and is not yet in the scan log
    records a [not_found] item for it, as the newest entry of the log, and
    reports the IMEI as unknown; when the IMEI is in the log already, the
    scan is reported as a duplicate and records nothing; on an input that is
    empty or white space only the handler changes nothing and reports
    nothing. *)
Theorem handleScan_unknown_or_blank (now : Z) (s : State) :
  isScanning s = true ->
  let x := Js.trim (imeiInput s) in
  (x <> "" -> findProduct x (products s) = None -> ~ In x (scannedIMEIs s) ->
   handleScan now s
   = (recorded (mkScannedItem x None now not_found) s, [ImeiNoEncontrado x]))
  /\ (x <> "" -> findProduct x (products s) = None -> In x (scannedIMEIs s) ->
      handleScan now s = (cleared s, [ImeiYaEscaneado]))
  /\ (Js.allWhiteSpace (imeiInput s) = true -> handleScan now s = (s, [])).
Proof.
  intros _ x. split; [|split].
  - intros Hx Hp Hn. apply handleScan_unknown; assumption.
  - intros Hx Hp Hin. apply handleScan_duplicate; try assumption.
    intros p Hq. fold x in Hq. rewrite Hp in Hq. discriminate Hq.
  - intro Hw. apply handleScan_blank. apply trim_empty. exact Hw.
Qed.

Lemma handleScan_unknown_or_blank_witness :
  let s := fst (setImeiInput " X " sampleSession) in
  handleScan 10 s
  = (recorded (mkScannedItem "X" None 10 not_found) s, [ImeiNoEncontrado "X"])
  /\ handleScan 10 (fst (setImeiInput "   " sampleSession))
     = (fst (setImeiInput "   " sampleSession), []).
Proof.
  split.
  - apply (handleScan_unknown_or_blank 10 (fst (setImeiInput " X " sampleSession))).
    + reflexivity.
    + discriminate.
    + reflexivity.
    + simpl. tauto.
  - apply (handleScan_unknown_or_blank 10 (fst (setImeiInput "   " sampleSession))).
    + reflexivity.
    + reflexivity.
Defined.

(** In every state the flag has no part in what [handleScan] does. *)
Lemma handleScan_flag_independent (now : Z) (s : State) (b : bool) :
  handleScan now (fst (setIsScanning b s))
  = (fst (setIsScanning b (fst (handleScan now s))), snd (handleScan now s)).
Proof.
  unfold handleScan; simpl.
  destruct (Js.truthy (Js.trim (imeiInput s))); [|reflexivity].
  destruct (findProduct _ _) as [p|]; [destruct (notForVerification p)|];
    try reflexivity;
    destruct (findScanned _ _); reflexivity.
Qed.

(** C10: [handleScan] does not read [isScanning].  In a state in which the
    session is not active, the scan of a non-empty IMEI whose record has a
    scannable status and which is not in the log yet records a [found] item
    for it and reports it as verified; and for either value of the flag the
    handler sends the same notifications and makes the same changes to the
    other cells. *)
Theorem handleScan_ignores_isScanning (now : Z) (s : State) (p : Product) :
  isScanning s = false ->
  Js.trim (imeiInput s) <> "" ->
  findProduct (Js.trim (imeiInput s)) (products s) = Some p ->
  scannableStatus (status p) ->
  ~ In (Js.trim (imeiInput s)) (scannedIMEIs s) ->
  scannedItems (fst (handleScan now s))
  = mkScannedItem (Js.trim (imeiInput s)) (Some p) now found :: scannedItems s
  /\ snd (handleScan now s) = [ProductoVerificado p]
  /\ isScanning (fst (handleScan now s)) = false
  /\ forall b,
       handleScan now (fst (setIsScanning b s))
       = (fst (setIsScanning b (fst (handleScan now s))), snd (handleScan now s)).
Proof.
  intros Ha Hx Hp Hs Hn. apply scannable_true in Hs.
  split; [|split; [|split]].
  - rewrite (handleScan_found now s p Hx Hp Hs Hn). reflexivity.
  - rewrite (handleScan_found now s p Hx Hp Hs Hn). reflexivity.
  - rewrite (handleScan_found now s p Hx Hp Hs Hn). exact Ha.
  - intro b. apply handleScan_flag_independent.
Qed.

Lemma handleScan_ignores_isScanning_witness :
  let s := mkState [phoneA; phoneB] false "A" [] (mkCounts 0 0 0 0) [] in
  scannedItems (fst (handleScan 10 s)) = [mkScannedItem "A" (Some phoneA) 10 found]
  /\ snd (handleScan 10 s) = [ProductoVerificado phoneA]
  /\ isScanning (fst (handleScan 10 s)) = false
  /\ forall b,
       handleScan 10 (fst (setIsScanning b s))
       = (fst (setIsScanning b (fst (handleScan 10 s))), snd (handleScan 10 s)).
Proof.
  apply (handleScan_ignores_isScanning 10
           (mkState [phoneA; phoneB] false "A" [] (mkCounts 0 0 0 0) []) phoneA).
  - reflexivity.
  - discriminate.
  - reflexivity.
  - left. reflexivity.
  - simpl. tauto.
Defined.

(** ** The scan log over a series of scans *)

Lemma handleScan_log (now : Z) (s : State) :
  (scannedItems (fst (handleScan now s)) = scannedItems s
   /\ recordedImeis (snd (handleScan now s)) = [])
  \/ (exists it,
        scannedItems (fst (handleScan now s)) = it :: scannedItems s
        /\ item_imei it = Js.trim (imeiInput s)
        /\ item_timestamp it = now
        /\ recordedImeis (snd (handleScan now s)) = [item_imei it]).
Proof.
  unfold handleScan.
  destruct (Js.truthy (Js.trim (imeiInput s))); [|left; split; reflexivity].
  destruct (findProduct _ _) as [p|] eqn:Ep.
  - destruct (notForVerification p); [left; split; reflexivity|].
    destruct (findScanned _ _); [left; split; reflexivity|].
    right. eexists. simpl. repeat split.
    apply findProduct_Some in Ep. destruct Ep as [_ ->]. reflexivity.
  - destruct (findScanned _ _); [left; split; reflexivity|].
    right. eexists. simpl. repeat split.
Qed.

Lemma andThen_fst (a b : Update) (s : State) :
  fst ((a ;; b) s) = fst (b (fst (a s))).
Proof.
  unfold andThen. destruct (a s) as [s1 t1]; simpl. destruct (b s1); reflexivity.
Qed.

Lemma andThen_snd (a b : Update) (s : State) :
  snd ((a ;; b) s) = snd (a s) ++ snd (b (fst (a s))).
Proof.
  unfold andThen. destruct (a s) as [s1 t1]; simpl. destruct (b s1); reflexivity.
Qed.

Lemma recordedImeis_app (ts us : list Toast) :
  recordedImeis (ts ++ us) = recordedImeis ts ++ recordedImeis us.
Proof. unfold recordedImeis. apply flat_map_app. Qed.

Lemma scans_log (inputs : list (Z * string)) (s : State) :
  exists added,
    scannedItems (fst (scans inputs s)) = rev added ++ scannedItems s
    /\ map item_imei added = recordedImeis (snd (scans inputs s)).
Proof.
  revert s. induction inputs as [|[now raw] rest IH]; intro s.
  - exists []. split; reflexivity.
  - simpl scans. rewrite andThen_fst, andThen_snd, recordedImeis_app.
    destruct (IH (fst (scan now raw s))) as [added [Hl Hr]].
    rewrite Hl, <- Hr. rewrite scan_eq.
    destruct (handleScan_log now (fst (setImeiInput raw s)))
      as [[H1 H2]|[it [H1 [_ [_ H2]]]]]; rewrite H1, H2; simpl.
    + exists added. split; reflexivity.
    + exists (it :: added). simpl. rewrite <- app_assoc. split; reflexivity.
Qed.

Lemma step_log (e : Event) (s : State) :
  scannedItems (fst (step e s)) = scannedItems s
  \/ scannedItems (fst (step e s)) = []
  \/ exists it, scannedItems (fst (step e s)) = it :: scannedItems s.
Proof.
  destruct e; simpl.
  - left; reflexivity.
  - left; reflexivity.
  - destruct (handleScan_log now s) as [[H _]|[it [H _]]].
    + left; exact H.
    + right; right; exists it; exact H.
  - right; left; reflexivity.
  - left. apply finalize_rest.
  - left. unfold detectMissingProducts.
    destruct (negb (isScanning s) && _ && _); [|reflexivity]. simpl.
    destruct (Nat.ltb 0 _); reflexivity.
  - unfold toggleScanning. destruct (negb (isScanning s)); simpl.
    + right; left; reflexivity.
    + left; reflexivity.
  - left. destruct outcome; simpl; try reflexivity. destruct data; reflexivity.
  - left. destruct outcome; simpl; try reflexivity. destruct data; reflexivity.
  - right; left; reflexivity.
Qed.

Lemma pageRecordedImeis_app (ts us : list StockControlPage.Toast) :
  pageRecordedImeis (ts ++ us) = pageRecordedImeis ts ++ pageRecordedImeis us.
Proof. unfold pageRecordedImeis. apply flat_map_app. Qed.

Lemma page_scan_log (raw : string) (s : StockControlPage.State) :
  StockControlPage.scannedItems (fst (StockControlPage.scan raw s))
  = StockControlPage.scannedItems s
    ++ pageRecordedImeis (snd (StockControlPage.scan raw s)).
Proof.
  unfold StockControlPage.scan, StockControlPage.andThen,
    StockControlPage.handleImeiScan; simpl.
  destruct (Js.truthy (Js.trim raw)); simpl; [|symmetry; apply app_nil_r].
  destruct (Js.includes _ _); simpl; [symmetry; apply app_nil_r | reflexivity].
Qed.

Lemma page_andThen_fst (a b : StockControlPage.Update) (s : StockControlPage.State) :
  fst (StockControlPage.andThen a b s) = fst (b (fst (a s))).
Proof.
  unfold StockControlPage.andThen. destruct (a s) as [s1 t1]; simpl.
  destruct (b s1); reflexivity.
Qed.

Lemma page_andThen_snd (a b : StockControlPage.Update) (s : StockControlPage.State) :
  snd (StockControlPage.andThen a b s) = snd (a s) ++ snd (b (fst (a s))).
Proof.
  unfold StockControlPage.andThen. destruct (a s) as [s1 t1]; simpl.
  destruct (b s1); reflexivity.
Qed.

Lemma page_scans_log (inputs : list string) (s : StockControlPage.State) :
  StockControlPage.scannedItems (fst (StockControlPage.scans inputs s))
  = StockControlPage.scannedItems s
    ++ pageRecordedImeis (snd (StockControlPage.scans inputs s)).
Proof.
  revert s. induction inputs as [|raw rest IH]; intro s.
  - simpl. symmetry. apply app_nil_r.
  - simpl StockControlPage.scans.
    rewrite page_andThen_fst, page_andThen_snd, pageRecordedImeis_app.
    rewrite IH, page_scan_log, app_assoc. reflexivity.
Qed.

(** In [handleScan] the newest entry is the first one of the log: after the
    accepted scans of A and then B the log reads B, A, and its last element
    is the first scan, not the latest. *)
Lemma handleScan_newest_first :
  let r := scans [(10, "A"); (11, "B")]%Z sampleSession in
  snd r = [ProductoVerificado phoneA; ProductoVerificado phoneB]
  /\ map item_imei (scannedItems (fst r)) = ["B"; "A"]
  /\ last (map item_imei (scannedItems (fst r))) "" = "A"
  /\ last (map item_imei (scannedItems (fst r))) "" <> "B".
Proof.
  repeat split; try reflexivity. simpl. discriminate.
Qed.

Lemma page_step_log (e : StockControlPage.Event) (s : StockControlPage.State) :
  StockControlPage.scannedItems (fst (StockControlPage.step e s))
  = StockControlPage.scannedItems s
  \/ StockControlPage.scannedItems (fst (StockControlPage.step e s)) = []
  \/ exists x,
       StockControlPage.scannedItems (fst (StockControlPage.step e s))
       = StockControlPage.scannedItems s ++ [x].
Proof.
  destruct e; simpl.
  - left; reflexivity.
  - unfold StockControlPage.handleImeiScan.
    destruct (String.eqb key "Enter" && _); [|left; reflexivity]. simpl.
    destruct (Js.includes _ _); simpl.
    + left; reflexivity.
    + right; right. eexists. reflexivity.
  - right; left; reflexivity.
  - left; reflexivity.
Qed.

(** C5, amended: over every series of scans, [handleScan] puts each
    recorded scan in front of the log, so the log is the recorded scans in
    reverse arrival order followed by the log as it was, untouched;
    [handleImeiScan] of the earlier page puts each recorded IMEI behind the
    log, so its log is in arrival order.  No operation of either page
    reorders the log or removes single entries: on the final page each
    handler (the start and finalize buttons, the scan form, the button that
    empties the missing list, the answers to update requests, the arrival
    of data) leaves the log as it is, empties it, or puts one item in
    front; on the earlier page each handler (typing, a key, the start and
    stop buttons) leaves it as it is, empties it, or puts one item
    behind. *)
Theorem scan_log_order :
  (forall inputs s, exists added,
      scannedItems (fst (scans inputs s)) = rev added ++ scannedItems s
      /\ map item_imei added = recordedImeis (snd (scans inputs s)))
  /\ (forall e s,
        scannedItems (fst (step e s)) = scannedItems s
        \/ scannedItems (fst (step e s)) = []
        \/ exists it, scannedItems (fst (step e s)) = it :: scannedItems s)
  /\ (forall inputs s,
        StockControlPage.scannedItems (fst (StockControlPage.scans inputs s))
        = StockControlPage.scannedItems s
          ++ pageRecordedImeis (snd (StockControlPage.scans inputs s)))
  /\ (forall e s,
        StockControlPage.scannedItems (fst (StockControlPage.step e s))
        = StockControlPage.scannedItems s
        \/ StockControlPage.scannedItems (fst (StockControlPage.step e s)) = []
        \/ exists x,
             StockControlPage.scannedItems (fst (StockControlPage.step e s))
             = StockControlPage.scannedItems s ++ [x]).
Proof.
  split; [exact scans_log|]. split; [exact step_log|].
  split; [exact page_scans_log | exact page_step_log].
Qed.

(** ** Remediation of a missing record *)

Lemma filter_all (A : Type) (f : A -> bool) (l : list A) :
  (forall a, In a l -> f a = true) -> filter f l = l.
Proof.
  induction l as [|a l IH]; simpl; intro H.
  - reflexivity.
  - rewrite (H a (or_introl eq_refl)). f_equal. apply IH.
    intros b Hb. apply H. right. exact Hb.
Qed.

(** Filtering on the identifier takes out the one record that carries it. *)
Lemma filter_id_removes (product : Product) (l1 l2 : list Product) :
  NoDup (map id (l1 ++ product :: l2)) ->
  filter (fun p => negb (Z.eqb (id p) (id product))) (l1 ++ product :: l2)
  = l1 ++ l2.
Proof.
  intro Hnd. rewrite map_app in Hnd. simpl in Hnd.
  pose proof (NoDup_remove_2 _ _ _ Hnd) as Hnot.
  rewrite filter_app. simpl. rewrite Z.eqb_refl. simpl.
  rewrite !filter_all; [reflexivity| |].
  - intros q Hq. apply negb_true_iff. apply Z.eqb_neq. intro E.
    apply Hnot. apply in_or_app. right. rewrite <- E. apply in_map. exact Hq.
  - intros q Hq. apply negb_true_iff. apply Z.eqb_neq. intro E.
    apply Hnot. apply in_or_app. left. rewrite <- E. apply in_map. exact Hq.
Qed.

(** The view is filtered by identifier: with the records B and a twin that
    carries the identifier of B both missing, a successful
    [handleMarkAsLost] of B takes the twin out of the view as well. *)
Lemma handleMarkAsLost_shared_id :
  let twin := mkProduct 2 7 "E" "iPhone 13" "128GB" "azul" disponible in
  let s := fst ((startScanningSession ;; finalizeScanningSession)
                  (initialState [phoneB; twin; phoneD])) in
  let s' := fst (handleMarkAsLostVia (fun _ => ResponseOk) None phoneB s) in
  missingProducts s = [phoneB; twin; phoneD]
  /\ In phoneB (missingProducts s)
  /\ twin <> phoneB
  /\ In twin (missingProducts s)
  /\ missingProducts s' = [phoneD]
  /\ ~ In twin (missingProducts s').
Proof.
  vm_compute. repeat split; try tauto; try discriminate.
  intros [H|[]]. discriminate H.
Qed.

(** C9, amended: for a record of [missingProducts], [handleMarkAsLost] puts
    to the inventory writer the request to set the status of the record of
    that identifier to [extravio], and what it does hangs on the answer to
    that request alone.  When the answer is a success, the view loses every
    record that carries the identifier of the record, which is that record
    and no other when identifiers are unique in the view (the remaining
    ones keep their order), the log, the baseline and the flag are kept,
    and the success is reported; when the write fails (a response that is
    not ok, or a rejected request) no cell of the state changes and exactly
    one failure notification is sent. *)
Theorem handleMarkAsLost_view
    (fetch : Writer) (s : State) (product : Product)
    (data : option (list Product)) :
  In product (missingProducts s) ->
  let request := mkPatchRequest (id product) extravio in
  let r := handleMarkAsLostVia fetch data product s in
  (forall fetch' : Writer,
     fetch' request = fetch request ->
     handleMarkAsLostVia fetch' data product s = r)
  /\ (fetch request = ResponseOk ->
      missingProducts (fst r)
      = filter (fun p => negb (Z.eqb (id p) (id product))) (missingProducts s)
      /\ (forall q, In q (missingProducts (fst r)) <->
                    In q (missingProducts s) /\ id q <> id product)
      /\ ~ In product (missingProducts (fst r))
      /\ (NoDup (map id (missingProducts s)) ->
          exists l1 l2, missingProducts s = l1 ++ product :: l2
                        /\ missingProducts (fst r) = l1 ++ l2)
      /\ scannedItems (fst r) = scannedItems s
      /\ sessionStartCounts (fst r) = sessionStartCounts s
      /\ isScanning (fst r) = isScanning s
      /\ snd r = [EstadoActualizado (model product)])
  /\ (fetch request <> ResponseOk ->
      fst r = s /\ exists t, snd r = [t] /\ reportsFailure t).
Proof.
  intros Hin request r. unfold r, handleMarkAsLostVia.
  change (markAsLostRequest product) with request.
  split; [|split].
  - intros fetch' H. rewrite H. reflexivity.
  - intro Hok. rewrite Hok.
    assert (Hm : missingProducts (fst (handleMarkAsLost product ResponseOk data s))
                 = filter (fun p => negb (Z.eqb (id p) (id product)))
                     (missingProducts s))
      by (destruct data; reflexivity).
    assert (Hq : forall q,
               In q (missingProducts (fst (handleMarkAsLost product ResponseOk data s)))
               <-> In q (missingProducts s) /\ id q <> id product).
    { intro q. rewrite Hm, filter_In, negb_true_iff, Z.eqb_neq. tauto. }
    split; [exact Hm|]. split; [exact Hq|]. split.
    { intro H. apply Hq in H. destruct H as [_ H]. apply H. reflexivity. }
    split.
    { intro Hnd. destruct (in_split _ _ Hin) as [l1 [l2 Hl]].
      exists l1, l2. split; [exact Hl|]. rewrite Hm, Hl.
      apply filter_id_removes. rewrite <- Hl. exact Hnd. }
    destruct data; repeat split.
  - intro Ho. destruct (fetch request) as [|message|].
    + contradiction.
    + split; [reflexivity|]. eexists. split; [reflexivity|].
      right. eexists. reflexivity.
    + split; [reflexivity|]. eexists. split; [reflexivity|]. left. reflexivity.
Qed.

Lemma handleMarkAsLost_view_witness :
  let s := fst (finalizeScanningSession (fst (scan 10 "A" sampleSession))) in
  let writer : Writer :=
    fun r => if Z.eqb (req_id r) 2 && status_eqb (req_status r) extravio
             then ResponseOk else Rejected in
  missingProducts s = [phoneB; phoneD]
  /\ missingProducts (fst (handleMarkAsLostVia writer None phoneB s)) = [phoneD]
  /\ fst (handleMarkAsLostVia (fun _ => Rejected) None phoneB s) = s.
Proof.
  intros s writer.
  assert (Hin : In phoneB (missingProducts s)) by (left; reflexivity).
  destruct (handleMarkAsLost_view writer s phoneB None Hin) as [_ [Hok _]].
  destruct (handleMarkAsLost_view (fun _ => Rejected) s phoneB None Hin)
    as [_ [_ Hfail]].
  split; [reflexivity|]. split.
  - destruct (Hok eq_refl) as [Hm _]. rewrite Hm. reflexivity.
  - apply Hfail. discriminate.
Defined.

(** ** Live counters *)

Lemma matched_nil (st : Status) (ps : list Product) : matched st [] ps = 0.
Proof.
  unfold matched. induction ps as [|p ps IH]; simpl; [reflexivity | exact IH].
Qed.

Lemma filter_split_key (h : Product -> bool) (g : string -> bool) (x : string)
    (ps : list Product) :
  NoDup (map imei ps) -> g x = false ->
  length (filter h (filter (fun p => String.eqb (imei p) x || g (imei p)) ps))
  = match find (fun p => String.eqb (imei p) x) ps with
    | Some p => if h p then 1 else 0
    | None => 0
    end
    + length (filter h (filter (fun p => g (imei p)) ps)).
Proof.
  intros Hnd Hx. induction ps as [|q ps IH]; simpl.
  - reflexivity.
  - inversion Hnd as [|? ? Hq Hnd']; subst. specialize (IH Hnd').
    destruct (String.eqb (imei q) x) eqn:E; simpl.
    + apply String.eqb_eq in E. subst x. rewrite Hx.
      apply findProduct_None in Hq. unfold findProduct in Hq.
      rewrite Hq in IH. simpl in IH.
      destruct (h q); simpl; rewrite IH; reflexivity.
    + destruct (g (imei q)); simpl; [|exact IH].
      destruct (h q); simpl; rewrite IH; lia.
Qed.

(** With IMEI as a key of the snapshot, one more scanned IMEI matches the
    record [findProduct] returns for it and no other. *)
Lemma matched_cons (st : Status) (x : string) (imeis : list string)
    (ps : list Product) :
  NoDup (map imei ps) -> ~ In x imeis ->
  matched st (x :: imeis) ps = foundCount st (findProduct x ps) + matched st imeis ps.
Proof.
  intros Hnd Hx. apply includes_false in Hx.
  exact (filter_split_key (hasStatus st) (Js.includes imeis) x ps Hnd Hx).
Qed.

Lemma start_SessionInv (s0 : State) :
  SessionInv (products s0) (fst (startScanningSession s0)).
Proof.
  constructor; try reflexivity.
  intro st. unfold startScanningSession, scannedIMEIs; simpl. apply matched_nil.
Qed.

Lemma handleScan_SessionInv (ps : list Product) (now : Z) (s : State) :
  NoDup (map imei ps) -> SessionInv ps s -> SessionInv ps (fst (handleScan now s)).
Proof.
  intros Hnd [Hp Ha Hb Hm].
  destruct (string_dec (Js.trim (imeiInput s)) "") as [Hx|Hx].
  { rewrite handleScan_blank by exact Hx. constructor; assumption. }
  destruct (findProduct (Js.trim (imeiInput s)) (products s)) as [p|] eqn:Ep.
  - destruct (scannable p) eqn:Es.
    + destruct (in_dec string_dec (Js.trim (imeiInput s)) (scannedIMEIs s)) as [Hin|Hn].
      * rewrite handleScan_duplicate; try assumption.
        -- constructor; assumption.
        -- intros q Hq. rewrite Ep in Hq. injection Hq as <-. exact Es.
      * rewrite (handleScan_found now s p Hx Ep Es Hn).
        constructor; try assumption. intro st.
        unfold scannedIMEIs, boundCount in *. simpl.
        rewrite matched_cons by assumption.
        rewrite <- Hp, Ep, Hp, Hm. simpl.
        destruct (hasStatus st p); reflexivity.
    + rewrite (handleScan_rejected now s p Hx Ep Es). constructor; assumption.
  - destruct (in_dec string_dec (Js.trim (imeiInput s)) (scannedIMEIs s)) as [Hin|Hn].
    + rewrite handleScan_duplicate; try assumption.
      * constructor; assumption.
      * intros q Hq. rewrite Ep in Hq. discriminate Hq.
    + rewrite (handleScan_unknown now s Hx Ep Hn).
      constructor; try assumption. intro st.
      unfold scannedIMEIs, boundCount in *. simpl.
      rewrite matched_cons by assumption.
      rewrite <- Hp, Ep, Hp, Hm. reflexivity.
Qed.

Lemma scans_SessionInv (ps : list Product) (inputs : list (Z * string)) (s : State) :
  NoDup (map imei ps) -> SessionInv ps s -> SessionInv ps (fst (scans inputs s)).
Proof.
  intro Hnd. revert s. induction inputs as [|[now raw] rest IH]; intros s Hs.
  - exact Hs.
  - simpl scans. rewrite andThen_fst. apply IH. rewrite scan_eq.
    apply handleScan_SessionInv; [exact Hnd|].
    destruct Hs as [Hp Ha Hb Hm]. constructor; assumption.
Qed.

Lemma liveCount_SessionInv (ps : list Product) (st : Status) (s : State) :
  SessionInv ps s ->
  liveCount st s
  = (Z.of_nat (length (filter (hasStatus st) ps))
     - Z.of_nat (boundCount st (scannedItems s)))%Z.
Proof.
  intros [Hp Ha Hb Hm]. unfold liveCount, stats_count, scannedProducts.
  rewrite Hp. rewrite <- (Hm st). reflexivity.
Qed.

(** With an empty snapshot the baseline total is 0 and [pendingToScan] is
    held at 0: after the scan of the unknown IMEI X the log has one entry,
    the expected total is 0 and [pendingToScan] is 0, not 0 - 1. *)
Lemma pendingToScan_zero_baseline :
  let s := fst ((startScanningSession ;; scan 10 "X") (initialState [])) in
  isScanning s = true
  /\ c_total (sessionStartCounts s) = 0
  /\ d_expectedTotal (dynamicStats s) = 0
  /\ length (scannedItems s) = 1
  /\ d_pendingToScan (dynamicStats s) = 0%Z
  /\ d_pendingToScan (dynamicStats s)
     <> (Z.of_nat (c_total (sessionStartCounts s))
         - Z.of_nat (length (scannedItems s)))%Z.
Proof.
  repeat split; try reflexivity. simpl. discriminate.
Qed.

(** With a positive baseline [pendingToScan] is not floored: one expected
    record, two recorded scans, and one scan pending less than none. *)
Lemma pendingToScan_negative :
  let s := fst ((startScanningSession ;; scans [(10, "A"); (11, "X")]%Z)
                  (initialState [phoneA])) in
  c_total (sessionStartCounts s) = 1
  /\ length (scannedItems s) = 2
  /\ d_pendingToScan (dynamicStats s) = (-1)%Z.
Proof. repeat split. Qed.

(** The live counters are taken from the snapshot of the moment: when the
    query data changes during the session they leave the baseline. *)
Lemma liveCount_after_refetch :
  let s := fst (step (DataArrived []) sampleSession) in
  isScanning s = true
  /\ c_disponible (sessionStartCounts s) = 1
  /\ boundCount disponible (scannedItems s) = 0
  /\ d_disponible (dynamicStats s) = 0%Z.
Proof. repeat split. Qed.

(** They count the snapshot records whose IMEI is in the log, not the log
    entries: two records that share an IMEI are both taken off by one scan. *)
Lemma liveCount_shared_imei :
  let twin := mkProduct 5 7 "A" "iPhone 12" "64GB" "gris" reservado in
  let s := fst ((startScanningSession ;; scan 10 "A") (initialState [phoneA; twin])) in
  isScanning s = true
  /\ c_reservado (sessionStartCounts s) = 1
  /\ boundCount reservado (scannedItems s) = 0
  /\ d_reservado (dynamicStats s) = 0%Z.
Proof. repeat split. Qed.

(** C8, amended: in every active session [pendingToScan] is the expected
    total less the length of the log, without a floor, when the expected
    total is positive, and 0 when the expected total is 0; and when the
    session was started on the snapshot it still shows, with IMEI a key of
    that snapshot, and continued by scans only, for each scannable status
    the live counter (the count of the status in the snapshot less the
    snapshot records of that status whose IMEI is in the log) is the
    baseline count of the status less the number of log entries bound to a
    record of that status. *)
Theorem dynamicStats_of_session (s : State) :
  isScanning s = true ->
  let b := sessionStartCounts s in
  let d := dynamicStats s in
  d_pendingToScan d
  = (if Nat.ltb 0 (c_total b)
     then Z.of_nat (c_total b) - Z.of_nat (length (scannedItems s))
     else 0)%Z
  /\ forall s0 inputs,
       NoDup (map imei (products s0)) ->
       s = fst ((startScanningSession ;; scans inputs) s0) ->
       d_disponible d
       = (Z.of_nat (c_disponible b)
          - Z.of_nat (boundCount disponible (scannedItems s)))%Z
       /\ d_reservado d
          = (Z.of_nat (c_reservado b)
             - Z.of_nat (boundCount reservado (scannedItems s)))%Z
       /\ d_tecnico_interno d
          = (Z.of_nat (c_tecnico_interno b)
             - Z.of_nat (boundCount tecnico_interno (scannedItems s)))%Z.
Proof.
  intros _ b d. split; [reflexivity|].
  intros s0 inputs Hnd Hs.
  assert (Hinv : SessionInv (products s0) s).
  { rewrite Hs, andThen_fst. apply scans_SessionInv; [exact Hnd|].
    apply start_SessionInv. }
  pose proof (liveCount_SessionInv _ disponible s Hinv) as Hd.
  pose proof (liveCount_SessionInv _ reservado s Hinv) as Hr.
  pose proof (liveCount_SessionInv _ tecnico_interno s Hinv) as Ht.
  destruct Hinv as [Hp Ha Hb Hm].
  unfold d, b. rewrite Hb. simpl.
  split; [exact Hd|]. split; [exact Hr | exact Ht].
Qed.

Lemma dynamicStats_of_session_witness :
  let s := fst ((startScanningSession ;; scans [(10, "A"); (11, "D"); (12, "A")]%Z)
                  (initialState [phoneA; phoneB; phoneC; phoneD])) in
  let b := sessionStartCounts s in
  let d := dynamicStats s in
  d_pendingToScan d
  = (Z.of_nat (c_total b) - Z.of_nat (length (scannedItems s)))%Z
  /\ d_disponible d
     = (Z.of_nat (c_disponible b)
        - Z.of_nat (boundCount disponible (scannedItems s)))%Z
  /\ d_reservado d
     = (Z.of_nat (c_reservado b)
        - Z.of_nat (boundCount reservado (scannedItems s)))%Z
  /\ d_tecnico_interno d
     = (Z.of_nat (c_tecnico_interno b)
        - Z.of_nat (boundCount tecnico_interno (scannedItems s)))%Z.
Proof.
  intros s b d.
  destruct (dynamicStats_of_session s eq_refl) as [Hp Hl].
  split; [exact Hp|].
  apply (Hl (initialState [phoneA; phoneB; phoneC; phoneD])
            [(10, "A"); (11, "D"); (12, "A")]%Z).
  - repeat constructor; simpl; intuition discriminate.
  - reflexivity.
Defined.

(** * Further properties of the pages *)

(** ** [trim] *)

Lemma trimStart_head (s : string) (c : ascii) (r : string) :
  Js.trimStart s = String c r -> Js.isWhiteSpace c = false.
Proof.
  induction s as [|d t IH]; simpl.
  - discriminate.
  - destruct (Js.isWhiteSpace d) eqn:E; [exact IH|].
    intro H. injection H as <- _. exact E.
Qed.

Lemma trimEnd_idempotent (s : string) : Js.trimEnd (Js.trimEnd s) = Js.trimEnd s.
Proof.
  induction s as [|c r IH]; simpl.
  - reflexivity.
  - destruct (Js.trimEnd r) as [|c' r'] eqn:E.
    + destruct (Js.isWhiteSpace c) eqn:W; simpl; [reflexivity|].
      rewrite W. reflexivity.
    + simpl. simpl in IH. rewrite IH. reflexivity.
Qed.

Lemma trimEnd_head (c : ascii) (r : string) :
  Js.isWhiteSpace c = false -> exists r', Js.trimEnd (String c r) = String c r'.
Proof.
  intro W. simpl. destruct (Js.trimEnd r).
  - rewrite W. eexists. reflexivity.
  - eexists. reflexivity.
Qed.

Lemma trim_idempotent (s : string) : Js.trim (Js.trim s) = Js.trim s.
Proof.
  unfold Js.trim. destruct (Js.trimStart s) as [|c r] eqn:E.
  - reflexivity.
  - pose proof (trimStart_head s c r E) as W.
    destruct (trimEnd_head c r W) as [r' Hr]. rewrite Hr.
    simpl Js.trimStart. rewrite W. rewrite <- Hr. apply trimEnd_idempotent.
Qed.

(** ** The decision table of [handleScan] *)

Lemma handleScan_cases (now : Z) (s : State) :
  let x := Js.trim (imeiInput s) in
  (x = "" /\ handleScan now s = (s, []))
  \/ (x <> "" /\ exists p,
        findProduct x (products s) = Some p /\ scannable p = false
        /\ handleScan now s = (cleared s, [ProductoNoValido (status p)]))
  \/ (admissible (products s) x /\ In x (scannedIMEIs s)
      /\ handleScan now s = (cleared s, [ImeiYaEscaneado]))
  \/ (admissible (products s) x /\ ~ In x (scannedIMEIs s)
      /\ exists it,
           item_imei it = x
           /\ item_product it = findProduct x (products s)
           /\ item_timestamp it = now
           /\ wellFormedItem it
           /\ fst (handleScan now s) = recorded it s).
Proof.
  intro x. unfold admissible.
  destruct (string_dec x "") as [Hx|Hx].
  { left. split; [exact Hx | apply handleScan_blank; exact Hx]. }
  right.
  destruct (findProduct x (products s)) as [p|] eqn:Ep.
  - destruct (scannable p) eqn:Es.
    + right.
      assert (Hall : forall q, Some p = Some q -> scannable q = true).
      { intros q Hq. injection Hq as <-. exact Es. }
      destruct (in_dec string_dec x (scannedIMEIs s)) as [Hin|Hn].
      * left. split; [split; assumption|]. split; [exact Hin|].
        apply handleScan_duplicate; try assumption.
        fold x. rewrite Ep. exact Hall.
      * right. split; [split; assumption|]. split; [exact Hn|].
        exists (mkScannedItem x (Some p) now found). simpl.
        split; [reflexivity|]. split; [reflexivity|]. split; [reflexivity|].
        split.
        -- unfold wellFormedItem; simpl. split; [exact Hx|].
           split; [apply trim_idempotent|].
           split; [reflexivity|]. split; [exact Es|].
           apply findProduct_Some in Ep. apply Ep.
        -- rewrite (handleScan_found now s p Hx Ep Es Hn). reflexivity.
    + left. split; [exact Hx|]. exists p. split; [reflexivity|].
      split; [exact Es|]. apply handleScan_rejected; assumption.
  - right.
    assert (Hall : forall q, @None Product = Some q -> scannable q = true)
      by (intros q Hq; discriminate Hq).
    destruct (in_dec string_dec x (scannedIMEIs s)) as [Hin|Hn].
    + left. split; [split; assumption|]. split; [exact Hin|].
      apply handleScan_duplicate; try assumption.
      fold x. rewrite Ep. exact Hall.
    + right. split; [split; assumption|]. split; [exact Hn|].
      exists (mkScannedItem x None now not_found). simpl.
      split; [reflexivity|]. split; [reflexivity|]. split; [reflexivity|].
      split.
      * unfold wellFormedItem; simpl. split; [exact Hx|].
        split; [apply trim_idempotent | reflexivity].
      * rewrite (handleScan_unknown now s Hx Ep Hn). reflexivity.
Qed.

(** ** Invariants of the scan log *)

Lemma handleScan_NoDup (now : Z) (s : State) :
  NoDup (scannedIMEIs s) -> NoDup (scannedIMEIs (fst (handleScan now s))).
Proof.
  intro Hnd.
  destruct (handleScan_cases now s)
    as [[_ H]|[[_ [p [_ [_ H]]]]|[[_ [_ H]]|[_ [Hn [it [Hi [_ [_ [_ H]]]]]]]]]];
    rewrite H; try exact Hnd.
  unfold scannedIMEIs; simpl. constructor; [rewrite Hi; exact Hn | exact Hnd].
Qed.

Lemma handleScan_wellFormed (now : Z) (s : State) :
  Forall wellFormedItem (scannedItems s) ->
  Forall wellFormedItem (scannedItems (fst (handleScan now s))).
Proof.
  intro Hwf.
  destruct (handleScan_cases now s)
    as [[_ H]|[[_ [p [_ [_ H]]]]|[[_ [_ H]]|[_ [_ [it [_ [_ [_ [Hit H]]]]]]]]]];
    rewrite H; try exact Hwf.
  simpl. constructor; assumption.
Qed.

Lemma step_log_cases (e : Event) (s : State) :
  scannedItems (fst (step e s)) = scannedItems s
  \/ scannedItems (fst (step e s)) = []
  \/ exists now, e = FormSubmitted now.
Proof.
  destruct e; simpl.
  - left; reflexivity.
  - left; reflexivity.
  - right; right; exists now; reflexivity.
  - right; left; reflexivity.
  - left. apply finalize_rest.
  - left. unfold detectMissingProducts.
    destruct (negb (isScanning s) && _ && _); [|reflexivity]. simpl.
    destruct (Nat.ltb 0 _); reflexivity.
  - unfold toggleScanning. destruct (negb (isScanning s)); simpl.
    + right; left; reflexivity.
    + left; reflexivity.
  - left. destruct outcome; simpl; try reflexivity. destruct data; reflexivity.
  - left. destruct outcome; simpl; try reflexivity. destruct data; reflexivity.
  - right; left; reflexivity.
Qed.

(** X1: no handler of the page makes an IMEI occur twice in the scan log:
    when the IMEIs of the log are pairwise distinct before an event, they
    are so after it, and the log of a session just started is empty. *)
Theorem step_keeps_log_distinct (e : Event) (s : State) :
  NoDup (scannedIMEIs s) ->
  NoDup (scannedIMEIs (fst (step e s)))
  /\ scannedIMEIs (fst (startScanningSession s)) = [].
Proof.
  intro Hnd. split; [|reflexivity].
  destruct (step_log_cases e s) as [H|[H|[now ->]]].
  - unfold scannedIMEIs. rewrite H. exact Hnd.
  - unfold scannedIMEIs. rewrite H. constructor.
  - apply handleScan_NoDup. exact Hnd.
Qed.

Lemma step_keeps_log_distinct_witness :
  let s := fst (scans [(10, "A"); (11, "B")]%Z sampleSession) in
  NoDup (scannedIMEIs (fst (step (FormSubmitted 12) (fst (setImeiInput "A" s)))))
  /\ scannedIMEIs (fst (startScanningSession (fst (setImeiInput "A" s)))) = [].
Proof.
  apply (step_keeps_log_distinct (FormSubmitted 12)
           (fst (setImeiInput "A"
                   (fst (scans [(10, "A"); (11, "B")]%Z sampleSession))))).
  repeat constructor; simpl; intuition discriminate.
Defined.

(** X2: every handler keeps the entries of the log well formed: the IMEI of
    an entry is not empty and carries no white space at either end; an
    entry with a record has status [found], and the record is scannable
    and has the IMEI of the entry; an entry without a record has status
    [not_found]. *)
Theorem step_keeps_log_wellFormed (e : Event) (s : State) :
  Forall wellFormedItem (scannedItems s) ->
  Forall wellFormedItem (scannedItems (fst (step e s))).
Proof.
  intro Hwf.
  destruct (step_log_cases e s) as [H|[H|[now ->]]].
  - rewrite H. exact Hwf.
  - rewrite H. constructor.
  - apply handleScan_wellFormed. exact Hwf.
Qed.

Lemma step_keeps_log_wellFormed_witness :
  Forall wellFormedItem
    (scannedItems (fst (step (FormSubmitted 12)
                          (fst (setImeiInput "  B " sampleSession))))).
Proof.
  apply (step_keeps_log_wellFormed (FormSubmitted 12)
           (fst (setImeiInput "  B " sampleSession))).
  constructor.
Defined.

(** ** Bounds of the live counters *)

Lemma filter_filter_length (A : Type) (f g : A -> bool) (l : list A) :
  length (filter f (filter g l)) <= length (filter f l).
Proof.
  induction l as [|a l IH]; simpl.
  - lia.
  - destruct (g a); simpl; destruct (f a); simpl; lia.
Qed.

(** X3: in every state each live counter of [dynamicStats] lies between 0
    and the count of its status in the snapshot: unlike [pendingToScan], it
    is never negative. *)
Theorem liveCount_bounds (st : Status) (s : State) :
  (0 <= liveCount st s <= Z.of_nat (stats_count st s))%Z
  /\ d_disponible (dynamicStats s) = liveCount disponible s
  /\ d_reservado (dynamicStats s) = liveCount reservado s
  /\ d_tecnico_interno (dynamicStats s) = liveCount tecnico_interno s.
Proof.
  split; [|repeat split].
  unfold liveCount, stats_count, scannedProducts.
  pose proof (filter_filter_length Product (hasStatus st)
                (fun p => Js.includes (scannedIMEIs s) (imei p)) (products s)).
  lia.
Qed.

(** ** What a session's log holds *)

Lemma handleScan_products (now : Z) (s : State) :
  products (fst (handleScan now s)) = products s.
Proof.
  destruct (handleScan_cases now s)
    as [[_ H]|[[_ [p [_ [_ H]]]]|[[_ [_ H]]|[_ [_ [it [_ [_ [_ [_ H]]]]]]]]]];
    rewrite H; reflexivity.
Qed.

Lemma handleScan_In (now : Z) (s : State) (x : string) :
  In x (scannedIMEIs (fst (handleScan now s))) <->
  In x (scannedIMEIs s)
  \/ (x = Js.trim (imeiInput s) /\ admissible (products s) x).
Proof.
  destruct (handleScan_cases now s)
    as [[Hb H]|[[_ [p [Hp [Hs H]]]]|[[Ha [Hin H]]|[Ha [_ [it [Hi [_ [_ [_ H]]]]]]]]]];
    rewrite H; simpl.
  - split; [tauto|]. intros [Hx|[Hx [Hne _]]]; [exact Hx|]. congruence.
  - split; [tauto|]. intros [Hx|[Hx [_ Hall]]]; [exact Hx|]. subst x.
    rewrite (Hall p Hp) in Hs. discriminate Hs.
  - split; [tauto|]. intros [Hx|[Hx _]]; [exact Hx|]. subst x. exact Hin.
  - unfold scannedIMEIs; simpl. rewrite Hi. split.
    + intros [Hx|Hx]; [right; subst x; split; [reflexivity | exact Ha] | left; exact Hx].
    + intros [Hx|[Hx _]]; [right; exact Hx | left; symmetry; exact Hx].
Qed.

Lemma scans_products (inputs : list (Z * string)) (s : State) :
  products (fst (scans inputs s)) = products s.
Proof.
  revert s. induction inputs as [|[now raw] rest IH]; intro s.
  - reflexivity.
  - simpl scans. rewrite andThen_fst, IH, scan_eq, handleScan_products.
    reflexivity.
Qed.

Lemma scans_In (inputs : list (Z * string)) (s : State) (x : string) :
  In x (scannedIMEIs (fst (scans inputs s))) <->
  In x (scannedIMEIs s)
  \/ (admissible (products s) x
      /\ exists now raw, In (now, raw) inputs /\ Js.trim raw = x).
Proof.
  revert s. induction inputs as [|[now raw] rest IH]; intro s.
  - simpl. split; [tauto|]. intros [H|[_ [n [r [[] _]]]]]. exact H.
  - simpl scans. rewrite andThen_fst, IH, scan_eq, handleScan_products,
      handleScan_In. simpl. split.
    + intros [[H|[Hx Ha]]|[Ha [n [r [Hin Hr]]]]].
      * left; exact H.
      * right. split; [exact Ha|]. exists now, raw. split; [left; reflexivity|].
        symmetry; exact Hx.
      * right. split; [exact Ha|]. exists n, r. split; [right; exact Hin | exact Hr].
    + intros [H|[Ha [n [r [[Hin|Hin] Hr]]]]].
      * left; left; exact H.
      * injection Hin as <- <-. left; right. split; [symmetry; exact Hr | exact Ha].
      * right. split; [exact Ha|]. exists n, r. split; assumption.
Qed.

Lemma session_In (s0 : State) (inputs : list (Z * string)) (x : string) :
  In x (scannedIMEIs (fst ((startScanningSession ;; scans inputs) s0))) <->
  admissible (products s0) x
  /\ exists now raw, In (now, raw) inputs /\ Js.trim raw = x.
Proof.
  rewrite andThen_fst, scans_In.
  unfold startScanningSession, scannedIMEIs; simpl. tauto.
Qed.

(** X4: the log of a session that was started and then received a series of
    scans holds exactly the trimmed inputs that are not empty and whose
    record, if the snapshot has one, is scannable. *)
Theorem session_log_membership
    (s0 : State) (inputs : list (Z * string)) (x : string) :
  let s := fst ((startScanningSession ;; scans inputs) s0) in
  In x (scannedIMEIs s) <->
  admissible (products s0) x
  /\ exists now raw, In (now, raw) inputs /\ Js.trim raw = x.
Proof. exact (session_In s0 inputs x). Qed.

Lemma session_missing (s0 : State) (inputs : list (Z * string)) (p : Product) :
  let s := fst ((startScanningSession ;; scans inputs) s0) in
  In p (missingProducts (fst (finalizeScanningSession s))) <->
  In p (products s0) /\ scannable p = true /\ ~ In (imei p) (scannedIMEIs s).
Proof.
  simpl. rewrite finalize_missing, !filter_In, negb_true_iff, includes_false.
  rewrite andThen_fst, scans_products.
  unfold startScanningSession at 2; simpl. tauto.
Qed.

(** X7: a scannable record can never be verified, and is reported missing
    by every session whatever is scanned, when its stored IMEI is empty,
    or carries white space at an end, or is also the IMEI of an earlier
    record of the snapshot that is not scannable. *)
Theorem record_never_verified
    (s0 : State) (inputs : list (Z * string)) (p : Product) :
  In p (products s0) ->
  scannable p = true ->
  imei p = ""
  \/ Js.trim (imei p) <> imei p
  \/ (exists q, findProduct (imei p) (products s0) = Some q /\ scannable q = false) ->
  In p (missingProducts
          (fst (finalizeScanningSession
                  (fst ((startScanningSession ;; scans inputs) s0))))).
Proof.
  intros Hin Hs Hbad. apply session_missing.
  split; [exact Hin|]. split; [exact Hs|].
  intro Hlog. apply session_In in Hlog.
  destruct Hlog as [[Hne Hall] [now [raw [_ Hr]]]].
  destruct Hbad as [He|[Ht|[q [Hq Hqs]]]].
  - contradiction.
  - apply Ht. rewrite <- Hr. apply trim_idempotent.
  - rewrite (Hall q Hq) in Hqs. discriminate Hqs.
Qed.

Lemma record_never_verified_witness :
  let padded := mkProduct 6 7 " E" "iPhone 15" "128GB" "verde" disponible in
  In padded
    (missingProducts
       (fst (finalizeScanningSession
               (fst ((startScanningSession ;; scans [(10, " E"); (11, "A")]%Z)
                       (initialState [phoneA; padded])))))).
Proof.
  apply (record_never_verified
           (initialState
              [phoneA; mkProduct 6 7 " E" "iPhone 15" "128GB" "verde" disponible])
           [(10, " E"); (11, "A")]%Z).
  - right. left. reflexivity.
  - reflexivity.
  - right. left. discriminate.
Defined.

(** ** The account of a finalized session *)

Lemma scans_wellFormed (inputs : list (Z * string)) (s : State) :
  Forall wellFormedItem (scannedItems s) ->
  Forall wellFormedItem (scannedItems (fst (scans inputs s))).
Proof.
  revert s. induction inputs as [|[now raw] rest IH]; intros s Hs.
  - exact Hs.
  - simpl scans. rewrite andThen_fst. apply IH. rewrite scan_eq.
    apply handleScan_wellFormed. exact Hs.
Qed.

(** Every entry of a well-formed log is bound to a record of one of the
    three scannable statuses or to none. *)
Lemma log_length_split (log : list ScannedItem) :
  Forall wellFormedItem log ->
  length log
  = boundCount disponible log + boundCount reservado log
    + boundCount tecnico_interno log + unknownCount log.
Proof.
  unfold boundCount, unknownCount.
  induction 1 as [|it log [_ [_ Hit]] _ IH]; simpl.
  - reflexivity.
  - destruct (item_product it) as [p|]; simpl; [|lia].
    destruct Hit as [_ [Hs _]]. unfold scannable, hasStatus in *.
    destruct (status p); simpl in *; try discriminate Hs; lia.
Qed.

(** Every scannable record is either absent from the scanned IMEIs or
    matched under its status. *)
Lemma scannable_split (imeis : list string) (ps : list Product) :
  length (filter scannable ps)
  = length (filter (fun p => negb (Js.includes imeis (imei p)))
              (filter scannable ps))
    + matched disponible imeis ps + matched reservado imeis ps
    + matched tecnico_interno imeis ps.
Proof.
  unfold matched. induction ps as [|p ps IH]; simpl.
  - reflexivity.
  - destruct (Js.includes imeis (imei p)) eqn:E; simpl.
    + unfold scannable, hasStatus in *.
      destruct (status p); simpl in *; rewrite ?E; simpl; lia.
    + unfold scannable, hasStatus in *.
      destruct (status p); simpl in *; rewrite ?E; simpl; lia.
Qed.

Lemma session_accounting (s0 : State) (inputs : list (Z * string)) :
  NoDup (map imei (products s0)) ->
  let s := fst ((startScanningSession ;; scans inputs) s0) in
  length (scannedItems s)
  + length (missingProducts (fst (finalizeScanningSession s)))
  = c_total (sessionStartCounts s) + unknownCount (scannedItems s).
Proof.
  intros Hnd s.
  assert (Hinv : SessionInv (products s0) s).
  { unfold s. rewrite andThen_fst. apply scans_SessionInv; [exact Hnd|].
    apply start_SessionInv. }
  assert (Hwf : Forall wellFormedItem (scannedItems s)).
  { unfold s. rewrite andThen_fst. apply scans_wellFormed. constructor. }
  destruct Hinv as [Hp Ha Hb Hm].
  rewrite finalize_missing, Hp, Hb. simpl.
  rewrite (scannable_split (scannedIMEIs s) (products s0)), !Hm.
  rewrite (log_length_split _ Hwf). lia.
Qed.

(** X6: in a session started on a snapshot with IMEI as key and continued
    by scans only, finalizing balances the books: scans recorded plus
    records missing equals records expected plus scans of unknown IMEIs.
    So the outcome is complete iff nothing is missing and no unknown IMEI
    was recorded, and incomplete iff nothing is missing but some unknown
    IMEI was recorded. *)
Theorem finalize_accounting (s0 : State) (inputs : list (Z * string)) :
  NoDup (map imei (products s0)) ->
  let s := fst ((startScanningSession ;; scans inputs) s0) in
  let missing := missingProducts (fst (finalizeScanningSession s)) in
  let scanned := length (scannedItems s) in
  let expected := c_total (sessionStartCounts s) in
  scanned + length missing = expected + unknownCount (scannedItems s)
  /\ (snd (finalizeScanningSession s) = [ControlCompletadoPerfecto scanned] <->
      missing = [] /\ unknownCount (scannedItems s) = 0)
  /\ (snd (finalizeScanningSession s) = [ControlIncompleto scanned expected] <->
      missing = [] /\ 0 < unknownCount (scannedItems s)).
Proof.
  intros Hnd s. cbv zeta.
  pose proof (session_accounting s0 inputs Hnd) as Hacc. cbv zeta in Hacc.
  fold s in Hacc.
  pose proof (finalize_toast s) as Ht. simpl in Ht. rewrite Ht. clear Ht.
  revert Hacc.
  generalize (missingProducts (fst (finalizeScanningSession s))).
  generalize (unknownCount (scannedItems s)).
  generalize (c_total (sessionStartCounts s)).
  generalize (length (scannedItems s)).
  intros scanned expected unknown missing Hacc.
  split; [exact Hacc|].
  destruct missing as [|m ms]; simpl in *.
  - destruct (Nat.eqb scanned expected) eqn:E;
      [apply Nat.eqb_eq in E | apply Nat.eqb_neq in E]; simpl;
      split; split; intro H; try discriminate H;
      try (split; [reflexivity | lia]); try reflexivity;
      try (exfalso; lia).
  - rewrite andb_false_r. split; split; intro H; try discriminate H;
      destruct H as [H _]; discriminate H.
Qed.

Lemma finalize_accounting_witness :
  let s := fst ((startScanningSession ;; scans [(10, "A"); (11, "X")]%Z)
                  (initialState [phoneA; phoneB; phoneC])) in
  length (scannedItems s)
  + length (missingProducts (fst (finalizeScanningSession s)))
  = c_total (sessionStartCounts s) + unknownCount (scannedItems s).
Proof.
  apply (finalize_accounting (initialState [phoneA; phoneB; phoneC])
           [(10, "A"); (11, "X")]%Z).
  repeat constructor; simpl; intuition discriminate.
Defined.

Lemma handleScan_bound (now : Z) (s : State) :
  Forall (fun it => item_product it = findProduct (item_imei it) (products s))
    (scannedItems s) ->
  Forall (fun it => item_product it = findProduct (item_imei it) (products s))
    (scannedItems (fst (handleScan now s))).
Proof.
  intro Hb.
  destruct (handleScan_cases now s)
    as [[_ H]|[[_ [p [_ [_ H]]]]|[[_ [_ H]]|[_ [_ [it [Hi [Hp [_ [_ H]]]]]]]]]];
    rewrite H; try exact Hb.
  simpl. constructor; [rewrite Hi; exact Hp | exact Hb].
Qed.

Lemma scans_bound (inputs : list (Z * string)) (s : State) :
  Forall (fun it => item_product it = findProduct (item_imei it) (products s))
    (scannedItems s) ->
  Forall (fun it => item_product it = findProduct (item_imei it) (products s))
    (scannedItems (fst (scans inputs s))).
Proof.
  revert s. induction inputs as [|[now raw] rest IH]; intros s Hs.
  - exact Hs.
  - simpl scans. rewrite andThen_fst.
    pose proof (handleScan_bound now (fst (setImeiInput raw s)) Hs) as H1.
    rewrite <- scan_eq in H1.
    assert (Hp : products (fst (scan now raw s)) = products s)
      by (rewrite scan_eq, handleScan_products; reflexivity).
    specialize (IH (fst (scan now raw s))). rewrite Hp in IH.
    apply IH. exact H1.
Qed.

Lemma unknownCount_zero (log : list ScannedItem) :
  Forall (fun it => item_product it <> None) log -> unknownCount log = 0.
Proof.
  unfold unknownCount. induction 1 as [|it log Hit _ IH]; simpl.
  - reflexivity.
  - destruct (item_product it); [exact IH | contradiction].
Qed.

(** X5: on a snapshot with IMEI as key, when every scannable record has a
    non-empty IMEI that some scan enters and every scan enters nothing or
    the IMEI of a record of the snapshot, in whatever order and however
    often, finalizing reports nothing missing and a complete control of
    all scannable records. *)
Theorem perfect_session (s0 : State) (inputs : list (Z * string)) :
  NoDup (map imei (products s0)) ->
  (forall p, In p (products s0) -> scannable p = true ->
     imei p <> "" /\ exists now raw, In (now, raw) inputs /\ Js.trim raw = imei p) ->
  (forall now raw, In (now, raw) inputs ->
     Js.trim raw = "" \/ In (Js.trim raw) (map imei (products s0))) ->
  let s := fst ((startScanningSession ;; scans inputs) s0) in
  missingProducts (fst (finalizeScanningSession s)) = []
  /\ snd (finalizeScanningSession s)
     = [ControlCompletadoPerfecto (length (filter scannable (products s0)))].
Proof.
  intros Hnd Hall Hknown s.
  assert (Hm : missingProducts (fst (finalizeScanningSession s)) = []).
  { destruct (missingProducts (fst (finalizeScanningSession s))) as [|m ms] eqn:E;
      [reflexivity|]. exfalso.
    assert (Hin : In m (missingProducts (fst (finalizeScanningSession s))))
      by (rewrite E; left; reflexivity).
    apply session_missing in Hin. destruct Hin as [Hp [Hs Hn]].
    apply Hn. apply session_In.
    destruct (Hall m Hp Hs) as [Hne Hraw].
    split; [|exact Hraw]. split; [exact Hne|].
    intros q Hq. rewrite (findProduct_unique _ _ Hnd Hp) in Hq.
    injection Hq as <-. exact Hs. }
  assert (Hu : unknownCount (scannedItems s) = 0).
  { apply unknownCount_zero.
    assert (Hb : Forall (fun it => item_product it
                                   = findProduct (item_imei it) (products s0))
                   (scannedItems s)).
    { unfold s. rewrite andThen_fst.
      apply (scans_bound inputs (fst (startScanningSession s0))). constructor. }
    rewrite Forall_forall in *. intros it Hit. rewrite (Hb it Hit).
    assert (Hlog : In (item_imei it) (scannedIMEIs s))
      by (apply in_map; exact Hit).
    apply session_In in Hlog.
    destruct Hlog as [[Hne _] [now [raw [Hin Hr]]]].
    destruct (Hknown now raw Hin) as [He|Hk].
    - congruence.
    - rewrite Hr in Hk. intro Hnone. apply findProduct_None in Hnone.
      contradiction. }
  split; [exact Hm|].
  pose proof (session_accounting s0 inputs Hnd) as Hacc. cbv zeta in Hacc.
  fold s in Hacc. rewrite Hm, Hu in Hacc. simpl in Hacc.
  pose proof (finalize_toast s) as Ht. simpl in Ht. rewrite Hm in Ht.
  assert (Ht' : c_total (sessionStartCounts s)
                = length (filter scannable (products s0))).
  { assert (Hinv : SessionInv (products s0) s).
    { unfold s. rewrite andThen_fst. apply scans_SessionInv; [exact Hnd|].
      apply start_SessionInv. }
    destruct Hinv as [_ _ Hb _]. rewrite Hb. reflexivity. }
  rewrite Ht. simpl.
  replace (length (scannedItems s)) with (c_total (sessionStartCounts s)) by lia.
  rewrite Nat.eqb_refl. simpl. rewrite Ht'. reflexivity.
Qed.

Lemma perfect_session_witness :
  let s := fst ((startScanningSession ;;
                 scans [(10, "D"); (11, " A "); (12, "C"); (13, "B"); (14, "A")]%Z)
                  (initialState [phoneA; phoneB; phoneC; phoneD])) in
  missingProducts (fst (finalizeScanningSession s)) = []
  /\ snd (finalizeScanningSession s) = [ControlCompletadoPerfecto 3].
Proof.
  apply (perfect_session (initialState [phoneA; phoneB; phoneC; phoneD])
           [(10, "D"); (11, " A "); (12, "C"); (13, "B"); (14, "A")]%Z).
  - repeat constructor; simpl; intuition discriminate.
  - simpl. intros p [<-|[<-|[<-|[<-|[]]]]] Hs; try discriminate Hs;
      (split; [discriminate|]).
    + exists 14%Z, "A". split; [tauto | reflexivity].
    + exists 13%Z, "B". split; [tauto | reflexivity].
    + exists 10%Z, "D". split; [tauto | reflexivity].
  - simpl. intros now raw H.
    repeat (destruct H as [H|H]; [injection H as <- <-; right; simpl; tauto|]).
    contradiction.
Defined.

(** ** Remediation, again *)

Lemma filter_idempotent (A : Type) (f : A -> bool) (l : list A) :
  filter f (filter f l) = filter f l.
Proof.
  apply filter_all. intros a Ha. apply filter_In in Ha. apply Ha.
Qed.

Lemma markLost_missing (product : Product) (data : option (list Product))
    (s : State) :
  missingProducts (fst (handleMarkAsLost product ResponseOk data s))
  = filter (fun p => negb (Z.eqb (id p) (id product))) (missingProducts s).
Proof. destruct data; reflexivity. Qed.

(** X8: marking a record as lost is idempotent on the missing list and is
    not undone by marking it as found: after one successful
    [handleMarkAsLost] no record with the identifier of the product is in
    the list, a second successful call leaves the list as it is, and
    [handleMarkAsFound], in whatever state and with whatever outcome,
    leaves the list as it is. *)
Theorem markLost_idempotent
    (product : Product) (d1 d2 d3 : option (list Product))
    (outcome : PatchOutcome) (s : State) :
  let s1 := fst (handleMarkAsLost product ResponseOk d1 s) in
  (forall q, In q (missingProducts s1) -> id q <> id product)
  /\ missingProducts (fst (handleMarkAsLost product ResponseOk d2 s1))
     = missingProducts s1
  /\ forall s',
       missingProducts (fst (handleMarkAsFound product outcome d3 s'))
       = missingProducts s'.
Proof.
  intro s1. split; [|split].
  - intros q Hq. unfold s1 in Hq. rewrite markLost_missing in Hq.
    apply filter_In in Hq. destruct Hq as [_ Hq].
    apply negb_true_iff in Hq. apply Z.eqb_neq in Hq. exact Hq.
  - rewrite markLost_missing. unfold s1. rewrite markLost_missing.
    apply filter_idempotent.
  - intro s'. destruct outcome; simpl; try reflexivity. destruct d3; reflexivity.
Qed.

(** ** The counters of the page *)

(** X12: the total of [stats] is the sum of its five status counters and of
    the records in the statuses [tecnico_externo] and [a_reparar], which no
    counter of the page shows. *)
Theorem stats_partition (s : State) :
  st_total (stats s)
  = st_disponible (stats s) + st_reservado (stats s) + st_vendido (stats s)
    + st_tecnico_interno (stats s) + st_extravios (stats s)
    + length (filter (hasStatus tecnico_externo) (products s))
    + length (filter (hasStatus a_reparar) (products s)).
Proof.
  unfold stats; simpl. induction (products s) as [|p ps IH]; simpl.
  - reflexivity.
  - unfold hasStatus in *. destruct (status p); simpl; lia.
Qed.

(** ** The page under its controls *)

(** X9: the button that empties the missing list, pressed where the page
    shows it, puts the session cells back to those of a page just mounted
    on the same products; the input field is not touched. *)
Theorem limpiarLista_resets (s : State) :
  uiEnabled UiClear s = true ->
  uiStep UiClear s = fst (setImeiInput (imeiInput s) (initialState (products s)))
  /\ snd (limpiarLista s) = [ListaLimpiada].
Proof.
  unfold uiEnabled, missingPanelShown. intro H.
  apply andb_true_iff in H. destruct H as [H _]. apply negb_true_iff in H.
  split; [|reflexivity]. simpl. rewrite H. reflexivity.
Qed.

Lemma limpiarLista_resets_witness :
  let s := fst (finalizeScanningSession (fst (scan 10 "A" sampleSession))) in
  uiStep UiClear s = fst (setImeiInput (imeiInput s) (initialState (products s)))
  /\ snd (limpiarLista s) = [ListaLimpiada].
Proof.
  apply (limpiarLista_resets
           (fst (finalizeScanningSession (fst (scan 10 "A" sampleSession))))).
  reflexivity.
Defined.

Lemma handleScan_frame (now : Z) (s : State) :
  isScanning (fst (handleScan now s)) = isScanning s
  /\ missingProducts (fst (handleScan now s)) = missingProducts s
  /\ sessionStartCounts (fst (handleScan now s)) = sessionStartCounts s.
Proof.
  destruct (handleScan_cases now s)
    as [[_ H]|[[_ [p [_ [_ H]]]]|[[_ [_ H]]|[_ [_ [it [_ [_ [_ [_ H]]]]]]]]]];
    rewrite H; repeat split.
Qed.

Lemma Forall_filter (A : Type) (P : A -> Prop) (f : A -> bool) (l : list A) :
  Forall P l -> Forall P (filter f l).
Proof.
  intro H. rewrite Forall_forall in *. intros a Ha.
  apply filter_In in Ha. apply H. apply Ha.
Qed.

Lemma initialState_PageInv (ps : list Product) : PageInv (initialState ps).
Proof.
  constructor; simpl; try constructor.
Qed.

Lemma uiStep_PageInv (e : UiEvent) (s : State) :
  PageInv s -> uiEnabled e s = true -> PageInv (uiStep e s).
Proof.
  intros [Hd Hw Ha Hs Hu Ht] He. destruct e; simpl in *.
  - constructor; assumption.
  - constructor; simpl; try constructor; try reflexivity.
    apply scannable_count.
  - destruct (finalize_rest s) as [Hf [Hl [_ Hc]]].
    pose proof (finalize_missing s) as Hm.
    constructor.
    + unfold scannedIMEIs. rewrite Hl. exact Hd.
    + rewrite Hl. exact Hw.
    + rewrite Hf. discriminate.
    + rewrite Hm. apply Forall_filter. rewrite Forall_forall.
      intros p Hp. apply filter_In in Hp. apply Hp.
    + rewrite Hm. unfold scannedIMEIs at 1. rewrite Hl. rewrite Forall_forall.
      intros p Hp. apply filter_In in Hp. destruct Hp as [_ Hp].
      apply negb_true_iff in Hp. apply includes_false in Hp. exact Hp.
    + rewrite Hc. exact Ht.
  - constructor; assumption.
  - unfold scanFormShown in He.
    destruct (handleScan_frame now s) as [Hf [Hm Hc]].
    pose proof (Ha He) as Hnil.
    constructor.
    + apply handleScan_NoDup. exact Hd.
    + apply handleScan_wellFormed. exact Hw.
    + intros _. rewrite Hm. exact Hnil.
    + rewrite Hm, Hnil. constructor.
    + rewrite Hm, Hnil. constructor.
    + rewrite Hc. exact Ht.
  - constructor; simpl; try constructor.
  - destruct outcome; simpl; try (constructor; assumption).
    assert (PageInv (fst (setMissingProducts
                            (filter (fun p => negb (Z.eqb (id p) (id product)))) s))).
    { constructor; simpl; try assumption.
      - intro Hact. rewrite (Ha Hact). reflexivity.
      - apply Forall_filter. exact Hs.
      - apply Forall_filter. exact Hu. }
    destruct data; simpl; [|exact H].
    destruct H as [Hd' Hw' Ha' Hs' Hu' Ht']. constructor; assumption.
  - destruct outcome; simpl; try (constructor; assumption).
    destruct data; simpl; constructor; assumption.
Qed.

Lemma uiRun_PageInv (es : list UiEvent) (s s' : State) :
  PageInv s -> uiRun es s = Some s' -> PageInv s'.
Proof.
  revert s. induction es as [|e es IH]; simpl; intros s Hs Hr.
  - injection Hr as <-. exact Hs.
  - destruct (uiEnabled e s) eqn:He; [|discriminate Hr].
    apply (IH (uiStep e s)); [|exact Hr].
    apply uiStep_PageInv; assumption.
Qed.

(** Without the guard of the markup the report can go stale: [handleScan]
    called on the finalized session records B, which the missing list goes
    on showing. *)
Lemma ungated_scan_stales_report :
  let s := fst (finalizeScanningSession (fst (scan 10 "A" sampleSession))) in
  let s' := fst (handleScan 11 (fst (setImeiInput "B" s))) in
  uiEnabled (UiSubmit 11) s = false
  /\ In phoneB (missingProducts s')
  /\ In (imei phoneB) (scannedIMEIs s').
Proof.
  vm_compute. repeat split; tauto.
Qed.

(** X13: in every state the page reaches from its mounted state by events
    that its controls allow, the IMEIs of the log are distinct and its
    entries well formed; while a session is active the missing list is
    empty; every record of the missing list is scannable and its IMEI is
    not in the log; and the expected total is the sum of the three baseline
    counts. *)
Theorem reachable_PageInv (ps : list Product) (es : list UiEvent) (s : State) :
  uiRun es (initialState ps) = Some s -> PageInv s.
Proof.
  apply uiRun_PageInv. apply initialState_PageInv.
Qed.

Lemma reachable_PageInv_witness :
  PageInv (fst (finalizeScanningSession (fst (scan 10 "A" sampleSession)))).
Proof.
  apply (reachable_PageInv []
           [UiData [phoneA; phoneB; phoneC; phoneD]; UiStart; UiType "A";
            UiSubmit 10; UiFinalize]).
  reflexivity.
Defined.

(** ** The earlier page: its scan log *)

Lemma page_scan_cases (raw : string) (s : StockControlPage.State) :
  let x := Js.trim raw in
  let log := StockControlPage.scannedItems s in
  let log' := StockControlPage.scannedItems (fst (StockControlPage.scan raw s)) in
  (x = "" /\ log' = log)
  \/ (x <> "" /\ In x log /\ log' = log)
  \/ (x <> "" /\ ~ In x log /\ log' = log ++ [x]).
Proof.
  unfold StockControlPage.scan, StockControlPage.andThen,
    StockControlPage.handleImeiScan; simpl.
  destruct (Js.truthy (Js.trim raw)) eqn:T; simpl.
  - apply truthy_true in T. right.
    destruct (Js.includes (StockControlPage.scannedItems s) (Js.trim raw)) eqn:E;
      simpl.
    + left. apply includes_true in E. repeat split; assumption.
    + right. apply includes_false in E. repeat split; assumption.
  - left. split; [|reflexivity].
    destruct (Js.trim raw); [reflexivity | discriminate T].
Qed.

Lemma page_scans_NoDup (inputs : list string) (s : StockControlPage.State) :
  NoDup (StockControlPage.scannedItems s) ->
  NoDup (StockControlPage.scannedItems (fst (StockControlPage.scans inputs s))).
Proof.
  revert s. induction inputs as [|raw rest IH]; intros s Hs.
  - exact Hs.
  - simpl StockControlPage.scans. rewrite page_andThen_fst. apply IH.
    destruct (page_scan_cases raw s) as [[_ H]|[[_ [_ H]]|[_ [Hn H]]]];
      rewrite H; try exact Hs.
    apply NoDup_app; [exact Hs | repeat constructor; intros [] |].
    intros a Ha [<-|[]]. contradiction.
Qed.

Lemma page_scans_In (inputs : list string) (s : StockControlPage.State)
    (x : string) :
  In x (StockControlPage.scannedItems (fst (StockControlPage.scans inputs s))) <->
  In x (StockControlPage.scannedItems s)
  \/ (x <> "" /\ exists raw, In raw inputs /\ Js.trim raw = x).
Proof.
  revert s. induction inputs as [|raw rest IH]; intro s.
  - simpl. split; [tauto|]. intros [H|[_ [r [[] _]]]]. exact H.
  - simpl StockControlPage.scans. rewrite page_andThen_fst, IH.
    destruct (page_scan_cases raw s) as [[Hx H]|[[Hx [Hin H]]|[Hx [Hn H]]]];
      rewrite H; clear H; simpl.
    + split.
      * intros [H|[Hne [r [Hr Ht]]]]; [left; exact H|].
        right. split; [exact Hne|]. exists r. split; [right; exact Hr | exact Ht].
      * intros [H|[Hne [r [[Hr|Hr] Ht]]]]; [left; exact H | |].
        -- subst r. congruence.
        -- right. split; [exact Hne|]. exists r. split; assumption.
    + split.
      * intros [H|[Hne [r [Hr Ht]]]]; [left; exact H|].
        right. split; [exact Hne|]. exists r. split; [right; exact Hr | exact Ht].
      * intros [H|[Hne [r [[Hr|Hr] Ht]]]]; [left; exact H | |].
        -- subst r. left. rewrite <- Ht. exact Hin.
        -- right. split; [exact Hne|]. exists r. split; assumption.
    + rewrite in_app_iff. simpl. split.
      * intros [[H|[H|[]]]|[Hne [r [Hr Ht]]]].
        -- left; exact H.
        -- right. split; [congruence|]. exists raw. split; [left; reflexivity | exact H].
        -- right. split; [exact Hne|]. exists r. split; [right; exact Hr | exact Ht].
      * intros [H|[Hne [r [[Hr|Hr] Ht]]]].
        -- left; left; exact H.
        -- subst r. left; right; left. exact Ht.
        -- right. split; [exact Hne|]. exists r. split; assumption.
Qed.

(** X14: on the earlier page, the log of a session that was started and
    then received a series of scans holds each non-empty trimmed input
    once, and nothing else. *)
Theorem page_session_log (inputs : list string) (s0 : StockControlPage.State) :
  let s := fst (StockControlPage.andThen StockControlPage.startScanning
                  (StockControlPage.scans inputs) s0) in
  NoDup (StockControlPage.scannedItems s)
  /\ forall x, In x (StockControlPage.scannedItems s) <->
               x <> "" /\ exists raw, In raw inputs /\ Js.trim raw = x.
Proof.
  simpl. rewrite page_andThen_fst. split.
  - apply page_scans_NoDup. simpl. constructor.
  - intro x. rewrite page_scans_In. simpl. tauto.
Qed.

(** ** The earlier page: its product list *)

Lemma lowerChar_whiteSpace (c : ascii) :
  Js.isWhiteSpace (Js.lowerChar c) = Js.isWhiteSpace c.
Proof. destruct c as [[] [] [] [] [] [] [] []]; reflexivity. Qed.

Lemma toLowerCase_allWhiteSpace (s : string) :
  Js.allWhiteSpace (Js.toLowerCase s) = Js.allWhiteSpace s.
Proof.
  induction s as [|c r IH]; simpl.
  - reflexivity.
  - rewrite lowerChar_whiteSpace, IH. reflexivity.
Qed.

Lemma truthy_trim (s : string) :
  Js.truthy (Js.trim s) = negb (Js.allWhiteSpace s).
Proof.
  destruct (Js.allWhiteSpace s) eqn:E; simpl.
  - apply trim_empty in E. rewrite E. reflexivity.
  - destruct (Js.trim s) eqn:T; [|reflexivity].
    apply trim_empty in T. congruence.
Qed.

(** X15: the search of the earlier page does not tell upper case from lower
    case in the query: two queries with the same lowered form give the same
    list, whatever the filter and the data. *)
Theorem search_ignores_query_case
    (f : StockControlPage.Filter) (q1 q2 : string)
    (allProducts extraviosProducts : StockControlPage.QueryData) :
  Js.toLowerCase q1 = Js.toLowerCase q2 ->
  StockControlPage.getFilteredProducts f q1 allProducts extraviosProducts
  = StockControlPage.getFilteredProducts f q2 allProducts extraviosProducts.
Proof.
  intro H. unfold StockControlPage.getFilteredProducts.
  rewrite !truthy_trim.
  rewrite <- (toLowerCase_allWhiteSpace q1), <- (toLowerCase_allWhiteSpace q2), H.
  destruct (negb _); [|reflexivity].
  apply filter_ext. intro p. unfold StockControlPage.matchesSearch.
  rewrite H. reflexivity.
Qed.

Lemma search_ignores_query_case_witness :
  let listed :=
    StockControlPage.array
      [StockControlPage.mkProduct 1 "A" "iPhone 12" "64GB" "Negro" "disponible"
         "2025-01-10" "100" "Acme" "A" "90";
       StockControlPage.mkProduct 2 "B" "Galaxy S21" "128GB" "Rojo" "reservado"
         "2025-01-11" "120" "Acme" "B" "85"] in
  StockControlPage.getFilteredProducts StockControlPage.filterAll "IPHONE 12"
    listed (StockControlPage.array [])
  = StockControlPage.getFilteredProducts StockControlPage.filterAll "iPhone 12"
      listed (StockControlPage.array []).
Proof.
  intro listed.
  apply (search_ignores_query_case StockControlPage.filterAll
           "IPHONE 12" "iPhone 12" listed (StockControlPage.array [])).
  reflexivity.
Defined.

(** X16: with a blank search, the rows the earlier page lists under a
    filter are as many as the counter of the filter when the product query
    holds a non-empty array; the lost products listed are always as many as
    their counter; but when the product query holds no products the lists
    are empty while the counters read 14, 4, 2 and 8. *)
Theorem page_list_and_counts
    (q : string) (allProducts extraviosProducts : StockControlPage.QueryData) :
  Js.allWhiteSpace q = true ->
  let st := StockControlPage.stats allProducts extraviosProducts in
  let rows f := length (StockControlPage.getFilteredProducts f q
                          allProducts extraviosProducts) in
  rows StockControlPage.filterExtravio = StockControlPage.extraviosCount st
  /\ (StockControlPage.nonEmptyArray allProducts = true ->
      rows StockControlPage.filterAll = StockControlPage.totalProducts st
      /\ rows StockControlPage.filterDisponible = StockControlPage.disponibleCount st
      /\ rows StockControlPage.filterReservado = StockControlPage.reservadoCount st)
  /\ (StockControlPage.nonEmptyArray allProducts = false ->
      rows StockControlPage.filterAll = 0
      /\ rows StockControlPage.filterDisponible = 0
      /\ rows StockControlPage.filterReservado = 0
      /\ st = StockControlPage.mkStats 14 4 2 8
                (StockControlPage.extraviosCount st)).
Proof.
  intros Hq st rows. unfold rows, st, StockControlPage.getFilteredProducts,
    StockControlPage.stats.
  rewrite truthy_trim, Hq. simpl.
  split; [|split].
  - destruct extraviosProducts as [|[|p ps]]; reflexivity.
  - intro H. rewrite H. repeat split.
  - intro H. rewrite H.
    destruct allProducts as [|[|p ps]]; [| |discriminate H]; repeat split.
Qed.

Lemma page_list_and_counts_witness :
  let st := StockControlPage.stats StockControlPage.notAnArray
              (StockControlPage.array []) in
  length (StockControlPage.getFilteredProducts StockControlPage.filterAll "  "
            StockControlPage.notAnArray (StockControlPage.array [])) = 0
  /\ StockControlPage.totalProducts st = 14.
Proof.
  destruct (page_list_and_counts "  " StockControlPage.notAnArray
              (StockControlPage.array []) eq_refl) as [_ [_ H]].
  destruct (H eq_refl) as [H0 [_ [_ H3]]].
  split; [exact H0 | rewrite H3; reflexivity].
Defined.

(** ** What a scan leaves alone *)

(** X10: [handleScan] writes to the scan log and the input field only: the
    snapshot, the active flag, the baseline and the missing list are after
    the call what they were before it, and the input field is emptied
    exactly when its trimmed content is not empty. *)
Theorem handleScan_touches_log_and_input (now : Z) (s : State) :
  let s' := fst (handleScan now s) in
  products s' = products s
  /\ isScanning s' = isScanning s
  /\ sessionStartCounts s' = sessionStartCounts s
  /\ missingProducts s' = missingProducts s
  /\ imeiInput s' = (if Js.truthy (Js.trim (imeiInput s)) then "" else imeiInput s).
Proof.
  destruct (handleScan_frame now s) as [Hf [Hm Hc]].
  split; [apply handleScan_products|]. split; [exact Hf|].
  split; [exact Hc|]. split; [exact Hm|].
  destruct (handleScan_cases now s)
    as [[Hx H]|[[Hx [p [_ [_ H]]]]|[[[Hx _] [_ H]]|[[Hx _] [_ [it [_ [_ [_ [_ H]]]]]]]]]];
    rewrite H; simpl; try (apply truthy_true in Hx; rewrite Hx; reflexivity).
  simpl in Hx. rewrite Hx. reflexivity.
Qed.

(** X11: in a session started on a snapshot with IMEI as key, with a
    positive expected total, and continued by scans only, the counter
    [pendingToScan] is the number of records a finalize would report
    missing less the number of unknown IMEIs recorded: each recorded
    unknown IMEI hides one pending record. *)
Theorem pendingToScan_hides_unknown (s0 : State) (inputs : list (Z * string)) :
  NoDup (map imei (products s0)) ->
  let s := fst ((startScanningSession ;; scans inputs) s0) in
  0 < c_total (sessionStartCounts s) ->
  d_pendingToScan (dynamicStats s)
  = (Z.of_nat (length (missingProducts (fst (finalizeScanningSession s))))
     - Z.of_nat (unknownCount (scannedItems s)))%Z.
Proof.
  intros Hnd s Hpos.
  pose proof (session_accounting s0 inputs Hnd) as Hacc. cbv zeta in Hacc.
  fold s in Hacc. unfold dynamicStats; simpl.
  apply Nat.ltb_lt in Hpos. rewrite Hpos. lia.
Qed.

Lemma pendingToScan_hides_unknown_witness :
  let s := fst ((startScanningSession ;; scans [(10, "A"); (11, "X")]%Z)
                  (initialState [phoneA; phoneB; phoneC])) in
  d_pendingToScan (dynamicStats s)
  = (Z.of_nat (length (missingProducts (fst (finalizeScanningSession s))))
     - Z.of_nat (unknownCount (scannedItems s)))%Z.
Proof.
  apply (pendingToScan_hides_unknown (initialState [phoneA; phoneB; phoneC])
           [(10, "A"); (11, "X")]%Z).
  - repeat constructor; simpl; intuition discriminate.
  - vm_compute. lia.
Defined.

(** ** The earlier page: its counters *)

Lemma page_status_counts (ps : list StockControlPage.Product) :
  length (filter (StockControlPage.statusIs "disponible") ps)
  + length (filter (StockControlPage.statusIs "reservado") ps)
  + length (filter (StockControlPage.statusIs "vendido") ps)
  <= length ps.
Proof.
  induction ps as [|p ps IH]; simpl.
  - lia.
  - unfold StockControlPage.statusIs in *.
    destruct (String.eqb (StockControlPage.status p) "disponible") eqn:E1;
      [apply String.eqb_eq in E1; rewrite E1; simpl; lia|].
    destruct (String.eqb (StockControlPage.status p) "reservado") eqn:E2;
      [apply String.eqb_eq in E2; rewrite E2; simpl; lia|].
    destruct (String.eqb (StockControlPage.status p) "vendido"); simpl; lia.
Qed.

(** X17: whatever the queries hold, the three status counters of the
    earlier page together do not exceed its total, which is never 0. *)
Theorem page_stats_bounded
    (allProducts extraviosProducts : StockControlPage.QueryData) :
  let st := StockControlPage.stats allProducts extraviosProducts in
  StockControlPage.disponibleCount st + StockControlPage.reservadoCount st
  + StockControlPage.vendidoCount st <= StockControlPage.totalProducts st
  /\ 0 < StockControlPage.totalProducts st.
Proof.
  unfold StockControlPage.stats; simpl.
  destruct (StockControlPage.nonEmptyArray allProducts) eqn:E; [|lia].
  split; [apply page_status_counts|].
  destruct allProducts as [|ps]; [discriminate E|].
  simpl in *. apply Nat.ltb_lt in E. exact E.
Qed.
